(** * Cellular automata of [automata.py]: Rule 30 and Conway's Game of Life

    A shallow embedding of the engines of [src/automata.py]
    ([rule_thirty], [life], [life_periodic], [lifehex], [life_generic])
    together with the part of the Python / numpy run time they rely on:
    exceptions, index normalisation, boolean arrays updated by index, the
    difference between a Python [bool] and a [numpy.bool_] scalar, and
    [for] / [while] loops. *)

From stdpp Require Import base list numbers.

Local Open Scope Z_scope.

(** ** The Python run time *)

Module Py.

(** The exceptions the engines can raise. *)
Inductive exception : Type :=
| IndexError
| ValueError
| UnboundLocalError.

(** The outcome of running a piece of code: a value, an exception, or a
    loop that used up the fuel it was given. *)
Inductive result (A : Type) : Type :=
| Ok (a : A)
| Raise (e : exception)
| OutOfFuel.
Arguments Ok {A} a.
Arguments Raise {A} e.
Arguments OutOfFuel {A}.

#[global] Instance result_ret : MRet result := fun A a => Ok a.
#[global] Instance result_bind : MBind result := fun A B f m =>
  match m with
  | Ok a => f a
  | Raise e => Raise e
  | OutOfFuel => OutOfFuel
  end.

(** What a loop body tells its loop: go on with the new state, or leave the
    enclosing function with a value ([return] inside the loop). *)
Inductive flow (S R : Type) : Type :=
| Continue (s : S)
| Return (r : R).
Arguments Continue {S R} s.
Arguments Return {S R} r.

(** [while cond: body] *)
Fixpoint while {S R} (fuel : nat) (cond : S -> bool)
         (body : S -> result (flow S R)) (s : S) : result (flow S R) :=
  match fuel with
  | O => OutOfFuel
  | Datatypes.S fuel' =>
      if cond s then
        match body s with
        | Ok (Continue s') => while fuel' cond body s'
        | other => other
        end
      else Ok (Continue s)
  end.

(** [range(a, b)] *)
Definition range (a b : Z) : list Z :=
  (fun k : nat => a + Z.of_nat k) <$> seq 0 (Z.to_nat (b - a)).

(** [for x in xs: body], the loop state threaded through the iterations. *)
Fixpoint for_each {S} (xs : list Z) (body : Z -> S -> result S) (s : S) : result S :=
  match xs with
  | [] => Ok s
  | x :: xs' =>
      match body x s with
      | Ok s' => for_each xs' body s'
      | other => other
      end
  end.

(** Scalars: a Python [bool] (the singletons [True] and [False]) or a
    [numpy.bool_], which is what indexing a boolean array down to one
    element yields. *)
Inductive scalar : Type :=
| PyBool (b : bool)
| NpBool (b : bool).

Definition truth (v : scalar) : bool :=
  match v with PyBool b | NpBool b => b end.

(** [v == w]: compares the truth values, whatever the two types. *)
Definition eq_ (v w : scalar) : bool := Bool.eqb (truth v) (truth w).

(** [v is True] / [v is False]: object identity with the Python singleton.
    A [numpy.bool_] is never that object. *)
Definition is_ (v : scalar) (singleton : bool) : bool :=
  match v with
  | PyBool b => Bool.eqb b singleton
  | NpBool _ => false
  end.

(** [l.count(x)] *)
Fixpoint count (l : list scalar) (x : scalar) : nat :=
  match l with
  | [] => O
  | v :: l' => ((if eq_ v x then 1 else 0) + count l' x)%nat
  end.

(** A local variable that may not have been assigned yet. *)
Definition local {A} (v : option A) : result A :=
  match v with
  | Some a => Ok a
  | None => Raise UnboundLocalError
  end.

(** What the engines return. *)
Inductive value : Type :=
| None_
| NotImplemented_
| Array1 (a : list bool)
| Array2 (a : list (list bool)).

Definition is_array (v : value) : bool :=
  match v with
  | Array1 _ | Array2 _ => true
  | None_ | NotImplemented_ => false
  end.

End Py.

Import Py.

(** ** numpy arrays of booleans, as nested lists *)

Module Np.

(** An integer index into an axis of length [len]: negative indices count
    from the end, anything else out of range is an [IndexError]. *)
Definition index (len : nat) (i : Z) : result nat :=
  if bool_decide (0 <= i < Z.of_nat len) then Ok (Z.to_nat i)
  else if bool_decide (- Z.of_nat len <= i < 0) then Ok (Z.to_nat (i + Z.of_nat len))
  else Raise IndexError.

Definition getitem {A} (a : list A) (i : Z) : result A :=
  k ← index (length a) i;
  match a !! k with
  | Some x => Ok x
  | None => Raise IndexError
  end.

Definition setitem {A} (a : list A) (i : Z) (x : A) : result (list A) :=
  k ← index (length a) i;
  Ok (<[k := x]> a).

(** A dimension handed to [np.full]. *)
Definition dim (n : Z) : result nat :=
  if bool_decide (0 <= n) then Ok (Z.to_nat n) else Raise ValueError.

(** [np.full((n, l), False)] and [np.full((n, r, c), False)] *)
Definition full2 (n l : nat) : list (list bool) := replicate n (replicate l false).
Definition full3 (n r c : nat) : list (list (list bool)) := replicate n (full2 r c).

(** [a[t, i]], a [numpy.bool_] *)
Definition read2 (a : list (list bool)) (t i : Z) : result scalar :=
  row ← getitem a t;
  b ← getitem row i;
  Ok (NpBool b).

(** [a[t, i] = v] *)
Definition write2 (a : list (list bool)) (t i : Z) (v : bool) : result (list (list bool)) :=
  row ← getitem a t;
  row' ← setitem row i v;
  setitem a t row'.

(** [a[t, i, j]], a [numpy.bool_] *)
Definition read3 (a : list (list (list bool))) (t i j : Z) : result scalar :=
  slab ← getitem a t;
  read2 slab i j.

(** [a[t, i, j] = v] *)
Definition write3 (a : list (list (list bool))) (t i j : Z) (v : bool)
  : result (list (list (list bool))) :=
  slab ← getitem a t;
  slab' ← write2 slab i j v;
  setitem a t slab'.

(** [a[t, dst, :] = a[t, src, :]] *)
Definition copy_row (a : list (list (list bool))) (t dst src : Z)
  : result (list (list (list bool))) :=
  slab ← getitem a t;
  row ← getitem slab src;
  slab' ← setitem slab dst row;
  setitem a t slab'.

Fixpoint map_result {A B} (f : A -> result B) (l : list A) : result (list B) :=
  match l with
  | [] => Ok []
  | x :: l' => y ← f x; ys ← map_result f l'; Ok (y :: ys)
  end.

(** [a[t, :, dst] = a[t, :, src]] *)
Definition copy_col (a : list (list (list bool))) (t dst src : Z)
  : result (list (list (list bool))) :=
  slab ← getitem a t;
  slab' ← map_result (fun row => x ← getitem row src; setitem row dst x) slab;
  setitem a t slab'.

(** [dst[start : start + len(src)] = src] *)
Definition assign_slice {A} (start : nat) (src dst : list A) : list A :=
  take start dst ++ src ++ drop (start + length src) dst.

(** [dst[1 : rows + 1, 1 : cols + 1] = src], for [src] of shape
    [(rows, cols)] and [dst] of shape [(rows + 2, cols + 2)]. *)
Definition assign_interior (src dst : list (list bool)) : list (list bool) :=
  take 1 dst
    ++ zip_with (assign_slice 1) src (take (length src) (drop 1 dst))
    ++ drop (1 + length src) dst.

(** [a[1 : rows + 1, 1 : cols + 1]] *)
Definition interior (rows cols : nat) (a : list (list bool)) : list (list bool) :=
  (fun row => take cols (drop 1 row)) <$> take rows (drop 1 a).

(** The shape [(shape[0], shape[1])] of [np.asarray(l)] for a list of lists
    [l].  The empty list gives a one-dimensional array, which has no
    [shape[1]]; rows of unequal lengths do not give a two-dimensional
    array either. *)
Definition shape2 (l : list (list bool)) : result (nat * nat) :=
  match l with
  | [] => Raise IndexError
  | r :: rest =>
      if forallb (fun r' => Nat.eqb (length r') (length r)) rest
      then Ok (length l, length r)
      else Raise ValueError
  end.

End Np.

Import Np.

(** ** Rule 30 *)

(** The dictionary [thirty_rule], in the order it is written. *)
Definition thirty_rule : list ((bool * bool * bool) * bool) :=
  [ ((true, true, true), false); ((true, true, false), false);
    ((true, false, true), false); ((true, false, false), true);
    ((false, true, true), true); ((false, true, false), true);
    ((false, false, true), true); ((false, false, false), false) ].

(** Equality of a looked-up tuple with a key of the dictionary: component by
    component with [==]. *)
Definition key_eq (k : scalar * scalar * scalar) (e : bool * bool * bool) : bool :=
  let '(a, b, c) := k in
  let '(x, y, z) := e in
  eq_ a (PyBool x) && eq_ b (PyBool y) && eq_ c (PyBool z).

(** [d.get(k)]: the value of the first matching key, or [None]. *)
Fixpoint dict_get (d : list ((bool * bool * bool) * bool)) (k : scalar * scalar * scalar)
  : option bool :=
  match d with
  | [] => None
  | (e, v) :: d' => if key_eq k e then Some v else dict_get d' k
  end.

(** What a boolean array stores when it is assigned the result of [get]:
    [None] is stored as [False]. *)
Definition stored (o : option bool) : bool := default false o.

(** Line 53: one interior cell of the next generation. *)
Definition rule_thirty_interior (current_step : Z) (i : Z) (current_state : list (list bool))
  : result (list (list bool)) :=
  a ← read2 current_state current_step (i - 1);
  b ← read2 current_state current_step i;
  c ← read2 current_state current_step (i + 1);
  write2 current_state (current_step + 1) i (stored (dict_get thirty_rule (a, b, c))).

(** Lines 52 to 71: the body of the [while] loop, without the increment. *)
Definition rule_thirty_body (L : Z) (periodic : bool) (current_step : Z)
           (current_state : list (list bool)) : result (list (list bool)) :=
  current_state ← for_each (range 1 (L - 1)) (rule_thirty_interior current_step) current_state;
  if periodic then
    a ← read2 current_state current_step (L - 1);
    b ← read2 current_state current_step 0;
    c ← read2 current_state current_step 1;
    current_state ← write2 current_state (current_step + 1) 0
                      (stored (dict_get thirty_rule (a, b, c)));
    a ← read2 current_state current_step (L - 2);
    b ← read2 current_state current_step (L - 1);
    c ← read2 current_state current_step 0;
    write2 current_state (current_step + 1) (L - 1)
      (stored (dict_get thirty_rule (a, b, c)))
  else
    b ← read2 current_state current_step 0;
    c ← read2 current_state current_step 1;
    current_state ← write2 current_state (current_step + 1) 0
                      (stored (dict_get thirty_rule (PyBool false, b, c)));
    a ← read2 current_state current_step (L - 2);
    b ← read2 current_state current_step (L - 1);
    write2 current_state (current_step + 1) (L - 1)
      (stored (dict_get thirty_rule (a, b, PyBool false))).

(** The state of the [while] loops: [current_step] and [current_state]. *)
Definition loop_cond {A} (nsteps : Z) (s : Z * A) : bool :=
  bool_decide (s.1 <= nsteps - 2).

(** Lines 47 to 73: the array [current_state] when the loop is left. *)
Definition rule_thirty_run (initial_state : list bool) (nsteps : Z) (periodic : bool)
  : result (list (list bool)) :=
  let L := length initial_state in
  n ← dim nsteps;
  let current_state := full2 n L in
  current_state ← setitem current_state 0 initial_state;
  r ← while (Z.to_nat nsteps) (loop_cond nsteps)
        (fun '(current_step, current_state) =>
           current_state ← rule_thirty_body (Z.of_nat L) periodic current_step current_state;
           Ok (Continue (R := Empty_set) (current_step + 1, current_state)))
        (0, current_state);
  match r with
  | Continue (_, current_state) => Ok current_state
  | Return v => Empty_set_rect _ v
  end.

Definition rule_thirty (initial_state : list bool) (nsteps : Z) (periodic : bool)
  : result value :=
  current_state ← rule_thirty_run initial_state nsteps periodic;
  row ← getitem current_state (nsteps - 1);
  Ok (Array1 row).


(** ** Game of Life, dead border *)

(** Lines 104 to 113 (and 165 to 174): the eight neighbours of cell [(i, j)]
    in generation [current_step], read from the array. *)
Definition neighbors (current_state : list (list (list bool))) (current_step i j : Z)
  : result (list scalar) :=
  n1 ← read3 current_state current_step (i - 1) (j - 1);
  n2 ← read3 current_state current_step (i - 1) j;
  n3 ← read3 current_state current_step (i - 1) (j + 1);
  n4 ← read3 current_state current_step i (j - 1);
  n5 ← read3 current_state current_step i (j + 1);
  n6 ← read3 current_state current_step (i + 1) (j - 1);
  n7 ← read3 current_state current_step (i + 1) j;
  n8 ← read3 current_state current_step (i + 1) (j + 1);
  Ok [n1; n2; n3; n4; n5; n6; n7; n8].

(** Lines 115 to 124 (and 176 to 185): the [if ... is True: ... elif ... is
    False: ...] statement that writes cell [(i, j)] of the next generation.
    When neither test holds nothing is written. *)
Definition decide_cell (current_state : list (list (list bool))) (current_step i j : Z)
           (num_alive : nat) : result (list (list (list bool))) :=
  c ← read3 current_state current_step i j;
  if is_ c true then
    if Nat.eqb num_alive 2 || Nat.eqb num_alive 3
    then write3 current_state (current_step + 1) i j true
    else write3 current_state (current_step + 1) i j false
  else
    c' ← read3 current_state current_step i j;
    if is_ c' false then
      if Nat.eqb num_alive 3
      then write3 current_state (current_step + 1) i j true
      else write3 current_state (current_step + 1) i j false
    else Ok current_state.

(** Lines 104 to 124: the body of the inner [for] loop of [life]. *)
Definition life_cell (current_step i j : Z) (current_state : list (list (list bool)))
  : result (list (list (list bool))) :=
  neighbors_list ← neighbors current_state current_step i j;
  let num_alive := count neighbors_list (PyBool true) in
  decide_cell current_state current_step i j num_alive.

(** Lines 98 and 99 (and 155 and 156): the buffer with the initial state in
    the interior of generation 0. *)
Definition padded (initial_state : list (list bool)) (nsteps : Z) (rows cols : nat)
  : result (list (list (list bool))) :=
  n ← dim nsteps;
  let current_state := full3 n (rows + 2) (cols + 2) in
  slab ← getitem current_state 0;
  setitem current_state 0 (assign_interior initial_state slab).

(** Lines 102 to 126: the body of the [while] loop of [life], which ends in
    the [return] statement. *)
Definition life_body (nsteps : Z) (rows cols : nat)
           (s : Z * list (list (list bool)))
  : result (flow (Z * list (list (list bool))) value) :=
  let '(current_step, current_state) := s in
  current_state ←
    for_each (range 1 (Z.of_nat rows + 1))
      (fun i => for_each (range 1 (Z.of_nat cols + 1)) (fun j => life_cell current_step i j))
      current_state;
  let current_step := current_step + 1 in
  slab ← getitem current_state (nsteps - 1);
  Ok (Return (Array2 (interior rows cols slab))).

(** [life]: a function that leaves its [while] loop without having met the
    [return] ends and returns [None]. *)
Definition life (initial_state : list (list bool)) (nsteps : Z) : result value :=
  '(rows, cols) ← shape2 initial_state;
  current_state ← padded initial_state nsteps rows cols;
  r ← while (Z.to_nat nsteps) (loop_cond nsteps) (life_body nsteps rows cols)
        (0, current_state);
  match r with
  | Return v => Ok v
  | Continue _ => Ok None_
  end.

(** ** Game of Life, periodic border *)

(** Lines 157 to 160: the border of generation 0. *)
Definition life_periodic_init (initial_state : list (list bool)) (nsteps : Z) (rows cols : nat)
  : result (list (list (list bool))) :=
  current_state ← padded initial_state nsteps rows cols;
  v ← read3 current_state 0 (Z.of_nat rows) 1;
  current_state ← write3 current_state 0 0 1 (truth v);
  current_state ← copy_row current_state 0 (Z.of_nat rows + 1) 1;
  current_state ← copy_col current_state 0 0 (Z.of_nat cols);
  copy_col current_state 0 (Z.of_nat cols + 1) 1.

(** Lines 186 to 189: the border of generation [t]. *)
Definition refresh_border (rows cols : nat) (t : Z) (current_state : list (list (list bool)))
  : result (list (list (list bool))) :=
  current_state ← copy_row current_state t 0 (Z.of_nat rows);
  current_state ← copy_row current_state t (Z.of_nat rows + 1) 1;
  current_state ← copy_col current_state t 0 (Z.of_nat cols);
  copy_col current_state t (Z.of_nat cols + 1) 1.

(** The variables of [life_periodic] that live across loop iterations: the
    array and the locals [neighbors_list] and [j], unassigned at first. *)
Record periodic_state : Type := PeriodicState {
  current_state_of : list (list (list bool));
  neighbors_list_of : option (list scalar);
  j_of : option Z
}.

(** Lines 164 to 174: the inner [for] loop, which only assigns
    [neighbors_list] (and [j]). *)
Definition life_periodic_inner (current_step i j : Z) (s : periodic_state)
  : result periodic_state :=
  neighbors_list ← neighbors (current_state_of s) current_step i j;
  Ok (PeriodicState (current_state_of s) (Some neighbors_list) (Some j)).

(** Lines 164 to 185: the body of the outer [for] loop; the count and the
    [if] statement come after the inner loop. *)
Definition life_periodic_row (cols : nat) (current_step i : Z) (s : periodic_state)
  : result periodic_state :=
  s ← for_each (range 1 (Z.of_nat cols + 1)) (life_periodic_inner current_step i) s;
  neighbors_list ← local (neighbors_list_of s);
  let num_alive := count neighbors_list (PyBool true) in
  j ← local (j_of s);
  current_state ← decide_cell (current_state_of s) current_step i j num_alive;
  Ok (PeriodicState current_state (neighbors_list_of s) (j_of s)).

(** Lines 163 to 190: the body of the [while] loop. *)
Definition life_periodic_body (rows cols : nat) (st : Z * periodic_state)
  : result (flow (Z * periodic_state) Empty_set) :=
  let '(current_step, s) := st in
  s ← for_each (range 1 (Z.of_nat rows + 1)) (life_periodic_row cols current_step) s;
  current_state ← refresh_border rows cols (current_step + 1) (current_state_of s);
  Ok (Continue (current_step + 1,
                PeriodicState current_state (neighbors_list_of s) (j_of s))).

(** Lines 153 to 190: the array [current_state] when the loop is left. *)
Definition life_periodic_run (initial_state : list (list bool)) (nsteps : Z)
  : result (nat * nat * list (list (list bool))) :=
  '(rows, cols) ← shape2 initial_state;
  current_state ← life_periodic_init initial_state nsteps rows cols;
  r ← while (Z.to_nat nsteps) (loop_cond nsteps) (life_periodic_body rows cols)
        (0, PeriodicState current_state None None);
  match r with
  | Continue (_, s) => Ok (rows, cols, current_state_of s)
  | Return v => Empty_set_rect _ v
  end.

Definition life_periodic (initial_state : list (list bool)) (nsteps : Z) : result value :=
  '(rows, cols, current_state) ← life_periodic_run initial_state nsteps;
  slab ← getitem current_state (nsteps - 1);
  Ok (Array2 (interior rows cols slab)).

(** ** The engines left unwritten *)

(** Both bodies are [return NotImplemented], whatever the arguments are:
    the arguments may be of any type. *)
Definition lifehex {A B : Type} (initial_state : A) (nsteps : B) : result value :=
  Ok NotImplemented_.

Definition life_generic {A B C D E : Type} (matrix : A) (initial_state : B) (nsteps : C)
           (environment : D) (fertility : E) : result value :=
  Ok NotImplemented_.

(** ** The automata as the specification words them *)

Module Spec.

(** Wolfram's numbering: the next value for the pattern (left, centre,
    right) is the bit of the rule number at position 4 left + 2 centre +
    right. *)
Definition wolfram (rule : Z) (l c r : bool) : bool :=
  Z.testbit rule (4 * Z.b2z l + 2 * Z.b2z c + Z.b2z r).

(** The value at position [i] of a lattice of length L: positions -1 and L
    are off in the finite case and wrap around in the periodic one. *)
Definition at_ (periodic : bool) (prev : list bool) (i : Z) : bool :=
  let L := Z.of_nat (length prev) in
  if periodic then default false (prev !! Z.to_nat (i `mod` L))
  else if bool_decide (0 <= i < L) then default false (prev !! Z.to_nat i)
  else false.

(** The next value of cell [i]. *)
Definition rule30_cell (periodic : bool) (prev : list bool) (i : Z) : bool :=
  wolfram 30 (at_ periodic prev (i - 1)) (at_ periodic prev i)
          (at_ periodic prev (i + 1)).

Definition rule30_step (periodic : bool) (prev : list bool) : list bool :=
  imap (fun (k : nat) (_ : bool) => rule30_cell periodic prev (Z.of_nat k)) prev.

(** The state after [nsteps] generations have been realised, generation 0
    being the initial state: [nsteps - 1] transitions. *)
Definition advance {A} (step : A -> A) (initial : A) (nsteps : Z) : A :=
  Nat.iter (Z.to_nat (nsteps - 1)) step initial.

(** Conway's rule with environment {2, 3} and fertility {3}. *)
Definition conway (alive : bool) (count : nat) : bool :=
  if alive then Nat.eqb count 2 || Nat.eqb count 3 else Nat.eqb count 3.

(** The cell at row [i] and column [j] of an R x C grid: cells outside the
    grid are dead, or the grid wraps around. *)
Definition cell (periodic : bool) (g : list (list bool)) (i j : Z) : bool :=
  let R := Z.of_nat (length g) in
  if periodic then
    let row := default [] (g !! Z.to_nat (i `mod` R)) in
    default false (row !! Z.to_nat (j `mod` Z.of_nat (length row)))
  else if bool_decide (0 <= i /\ 0 <= j) then
    default false (default [] (g !! Z.to_nat i) !! Z.to_nat j)
  else false.

Definition alive_neighbours (periodic : bool) (g : list (list bool)) (i j : Z) : nat :=
  length (List.filter (fun b : bool => b)
    [ cell periodic g (i - 1) (j - 1); cell periodic g (i - 1) j;
      cell periodic g (i - 1) (j + 1); cell periodic g i (j - 1);
      cell periodic g i (j + 1); cell periodic g (i + 1) (j - 1);
      cell periodic g (i + 1) j; cell periodic g (i + 1) (j + 1) ]).

Definition life_step (periodic : bool) (g : list (list bool)) : list (list bool) :=
  imap (fun (i : nat) (row : list bool) =>
          imap (fun (j : nat) (alive : bool) =>
                  conway alive (alive_neighbours periodic g (Z.of_nat i) (Z.of_nat j)))
               row)
       g.

End Spec.

(** ** Shapes, and the arrays the proofs name *)

(** Arrays of a given shape. *)
Definition shaped2 (r c : nat) (a : list (list bool)) : Prop :=
  length a = r /\ Forall (fun row => length row = c) a.

Definition shaped3 (n r c : nat) (a : list (list (list bool))) : Prop :=
  length a = n /\ Forall (shaped2 r c) a.

(** Generation 0 of the buffer of [life] and [life_periodic], before any
    border assignment. *)
Definition generation0 (initial_state : list (list bool)) (rows cols : nat)
  : list (list bool) :=
  assign_interior initial_state (full2 (rows + 2) (cols + 2)).

(** What [a[:, dst] = a[:, src]] does to one row. *)
Definition copy_cell (dst src : nat) (row : list bool) : list bool :=
  <[dst := default false (row !! src)]> row.

(** ** Sample grids *)

(** One live cell. *)
Definition single : list (list bool) := [[true]].

(** A 2 x 2 grid, alive in its last cell only. *)
Definition corner2 : list (list bool) :=
  [ [false; false];
    [false; true] ].

(** The block, a still life. *)
Definition block4 : list (list bool) :=
  [ [false; false; false; false];
    [false; true; true; false];
    [false; true; true; false];
    [false; false; false; false] ].

(** The blinker, of period 2. *)
Definition blinker5 : list (list bool) :=
  [ [false; false; false; false; false];
    [false; false; true; false; false];
    [false; false; true; false; false];
    [false; false; true; false; false];
    [false; false; false; false; false] ].

(** The glider and its next generation. *)
Definition glider5 : list (list bool) :=
  [ [false; true; false; false; false];
    [false; false; true; false; false];
    [true; true; true; false; false];
    [false; false; false; false; false];
    [false; false; false; false; false] ].

Definition glider5_next : list (list bool) :=
  [ [false; false; false; false; false];
    [true; false; true; false; false];
    [false; true; true; false; false];
    [false; true; false; false; false];
    [false; false; false; false; false] ].

Definition dead5 : list (list bool) := full2 5 5.

(** ** Notions the further properties are stated with *)

(** The generations 0 to [n - 1] of an automaton, in order. *)
Definition history {A} (step : A -> A) (initial : A) (n : nat) : list A :=
  (fun k => Nat.iter k step initial) <$> seq 0 n.

(** The cell at row [i] and column [j] of a two-dimensional array. *)
Definition cell2 (a : list (list bool)) (i j : nat) : option bool :=
  row ← a !! i; row !! j.

(** Where a position of the padded buffer of an axis of [n] interior cells
    takes its value from under periodic boundaries: the border position 0
    from the last interior position, the border position [n + 1] from the
    first, an interior position from itself. *)
Definition wrap (n i : nat) : nat :=
  if Nat.eqb i 0 then n else if Nat.eqb i (n + 1) then 1%nat else i.

(** What lines 186 to 189 make of one generation of the buffer: the two
    row assignments, then the two column assignments on every row. *)
Definition refreshed (rows cols : nat) (slab : list (list bool)) : list (list bool) :=
  let s1 := <[O := default [] (slab !! rows)]> slab in
  let s2 := <[S rows := default [] (s1 !! 1%nat)]> s1 in
  (fun row => copy_cell (S cols) 1 (copy_cell 0 cols row)) <$> s2.

(** What lines 157 to 160 make of generation 0: the assignment of one cell
    of the top border, the assignment of the bottom border row, then the
    two column assignments on every row. *)
Definition border0 (rows cols : nat) (slab : list (list bool)) : list (list bool) :=
  let v := default false (cell2 slab rows 1) in
  let s1 := <[O := <[1%nat := v]> (default [] (slab !! O))]> slab in
  let s2 := <[S rows := default [] (s1 !! 1%nat)]> s1 in
  (fun row => copy_cell (S cols) 1 (copy_cell 0 cols row)) <$> s2.

(** ** Lemmas on the run time *)

Ltac run := cbn [mbind result_bind mret result_ret].

Section indexing.
Context {A : Type}.
Implicit Types (a : list A) (i : Z) (x : A).

Lemma index_in_range (len : nat) i :
  0 <= i < Z.of_nat len -> index len i = Ok (Z.to_nat i).
Proof. intros H. unfold index. rewrite bool_decide_eq_true_2; done. Qed.

Lemma getitem_Some a i x :
  0 <= i -> a !! Z.to_nat i = Some x -> getitem a i = Ok x.
Proof.
  intros Hi Hx. unfold getitem.
  rewrite index_in_range.
  - run. by rewrite Hx.
  - apply lookup_lt_Some in Hx. lia.
Qed.

Lemma setitem_in_range a i x :
  0 <= i < Z.of_nat (length a) -> setitem a i x = Ok (<[Z.to_nat i := x]> a).
Proof. intros H. unfold setitem. by rewrite index_in_range. Qed.

End indexing.

Lemma shaped2_lookup r c a (i : nat) :
  shaped2 r c a -> (i < r)%nat -> exists row, a !! i = Some row /\ length row = c.
Proof.
  intros [Hl Hf] Hi.
  destruct (lookup_lt_is_Some_2 a i) as [row Hrow]; [lia|].
  exists row. split; [done|].
  by eapply (Forall_lookup_1 _ _ _ _ Hf).
Qed.

Lemma shaped3_lookup n r c a (t : nat) :
  shaped3 n r c a -> (t < n)%nat -> exists slab, a !! t = Some slab /\ shaped2 r c slab.
Proof.
  intros [Hl Hf] Ht.
  destruct (lookup_lt_is_Some_2 a t) as [slab Hslab]; [lia|].
  exists slab. split; [done|].
  by eapply (Forall_lookup_1 _ _ _ _ Hf).
Qed.

Lemma shaped2_full r c : shaped2 r c (full2 r c).
Proof.
  split.
  - apply length_replicate.
  - apply Forall_replicate, length_replicate.
Qed.

Lemma shaped2_insert r c a (i : nat) row :
  shaped2 r c a -> length row = c -> shaped2 r c (<[i := row]> a).
Proof.
  intros [Hl Hf] Hrow. split.
  - by rewrite length_insert.
  - by apply Forall_insert.
Qed.

(** Reads and writes inside the bounds. *)
Lemma read2_Some (a : list (list bool)) (t i : Z) row b :
  0 <= t -> 0 <= i ->
  a !! Z.to_nat t = Some row -> row !! Z.to_nat i = Some b ->
  read2 a t i = Ok (NpBool b).
Proof.
  intros Ht Hi Hrow Hb. unfold read2.
  rewrite (getitem_Some _ _ _ Ht Hrow). run.
  by rewrite (getitem_Some _ _ _ Hi Hb).
Qed.

Lemma write2_Some (a : list (list bool)) (t i : Z) row v :
  0 <= t -> 0 <= i < Z.of_nat (length row) ->
  a !! Z.to_nat t = Some row ->
  write2 a t i v = Ok (<[Z.to_nat t := <[Z.to_nat i := v]> row]> a).
Proof.
  intros Ht Hi Hrow. unfold write2.
  rewrite (getitem_Some _ _ _ Ht Hrow). run.
  rewrite setitem_in_range by done. run.
  apply setitem_in_range. apply lookup_lt_Some in Hrow. lia.
Qed.

Lemma read3_Some (a : list (list (list bool))) (t i j : Z) slab row b :
  0 <= t -> 0 <= i -> 0 <= j ->
  a !! Z.to_nat t = Some slab -> slab !! Z.to_nat i = Some row ->
  row !! Z.to_nat j = Some b ->
  read3 a t i j = Ok (NpBool b).
Proof.
  intros Ht Hi Hj Hslab Hrow Hb. unfold read3.
  rewrite (getitem_Some _ _ _ Ht Hslab). run.
  by eapply read2_Some.
Qed.

Lemma read3_shaped n r c (a : list (list (list bool))) (t i j : Z) :
  shaped3 n r c a ->
  0 <= t < Z.of_nat n -> 0 <= i < Z.of_nat r -> 0 <= j < Z.of_nat c ->
  exists b, read3 a t i j = Ok (NpBool b).
Proof.
  intros Ha Ht Hi Hj.
  destruct (shaped3_lookup _ _ _ _ (Z.to_nat t) Ha) as (slab & Hslab & Hs); [lia|].
  destruct (shaped2_lookup _ _ _ (Z.to_nat i) Hs) as (row & Hrow & Hlen); [lia|].
  destruct (lookup_lt_is_Some_2 row (Z.to_nat j)) as [b Hb]; [lia|].
  exists b. eapply read3_Some; [lia | lia | lia | done..].
Qed.

(** ** Lemmas on the loops *)

Lemma range_empty (a b : Z) : b <= a -> range a b = [].
Proof.
  intros H. unfold range.
  replace (Z.to_nat (b - a)) with O by lia. done.
Qed.

Lemma range_first (a b : Z) : a < b -> range a b = a :: range (a + 1) b.
Proof.
  intros H. unfold range.
  replace (Z.to_nat (b - a)) with (S (Z.to_nat (b - (a + 1)))) by lia.
  cbn [seq fmap list_fmap]. f_equal; [lia|].
  rewrite <- fmap_S_seq, <- list_fmap_compose.
  apply list_fmap_ext. intros _ k _. cbn. lia.
Qed.

(** A [for] loop over [range(a, b)] keeps an invariant that each iteration
    carries from [i] to [i + 1]. *)
Lemma for_each_range {S} (P : Z -> S -> Prop) (body : Z -> S -> result S) (b : Z) :
  (forall i s, i < b -> P i s -> exists s', body i s = Ok s' /\ P (i + 1) s') ->
  forall (k : nat) (a : Z) (s : S),
    a <= b -> k = Z.to_nat (b - a) -> P a s ->
    exists s', for_each (range a b) body s = Ok s' /\ P b s'.
Proof.
  intros Hbody. induction k as [|k IH]; intros a s Hab Hk HP.
  - assert (a = b) as -> by lia.
    rewrite range_empty by lia. by exists s.
  - rewrite range_first by lia. cbn [for_each].
    destruct (Hbody a s) as (s1 & -> & HP1); [lia | done |].
    apply IH; [lia | lia | done].
Qed.

(** The first failing iteration of a [for] loop ends the loop. *)
Lemma for_each_raise {S} (body : Z -> S -> result S) (x : Z) (xs : list Z) (s : S) e :
  body x s = Raise e -> for_each (x :: xs) body s = Raise e.
Proof. intros H. cbn. by rewrite H. Qed.

(** The counting [while] loops of the engines: the body takes
    [current_step] to [current_step + 1] and keeps an invariant; the loop
    ends with [current_step = nsteps - 1], within the fuel. *)
Lemma while_count {S R} (nsteps : Z) (P : Z -> S -> Prop)
      (body : Z * S -> result (flow (Z * S) R)) :
  (forall t s, 0 <= t <= nsteps - 2 -> P t s ->
               exists s', body (t, s) = Ok (Continue (t + 1, s')) /\ P (t + 1) s') ->
  forall (k : nat) (t : Z) (s : S) (fuel : nat),
    0 <= t <= nsteps - 1 -> k = Z.to_nat (nsteps - 1 - t) -> (k < fuel)%nat -> P t s ->
    exists s', while fuel (loop_cond nsteps) body (t, s) = Ok (Continue (nsteps - 1, s'))
               /\ P (nsteps - 1) s'.
Proof.
  intros Hbody. induction k as [|k IH]; intros t s fuel Ht Hk Hfuel HP.
  - assert (t = nsteps - 1) as -> by lia.
    destruct fuel as [|fuel]; [lia|]. cbn [while].
    unfold loop_cond at 1. cbn [fst].
    rewrite bool_decide_eq_false_2 by lia. by exists s.
  - destruct fuel as [|fuel]; [lia|]. cbn [while].
    unfold loop_cond at 1. cbn [fst].
    rewrite bool_decide_eq_true_2 by lia.
    destruct (Hbody t s) as (s1 & -> & HP1); [lia | done |].
    apply IH; [lia | lia | lia | done].
Qed.

(** With [nsteps = 1] the loop body is never entered. *)
Lemma while_skip {S R} (body : Z * S -> result (flow (Z * S) R)) (s : S) :
  while (Z.to_nat 1) (loop_cond 1) body (0, s) = Ok (Continue (0, s)).
Proof. reflexivity. Qed.

(** ** Rule 30: the table and the transition *)

Lemma dict_get_thirty_rule (a b c : scalar) :
  dict_get thirty_rule (a, b, c) = Some (Spec.wolfram 30 (truth a) (truth b) (truth c)).
Proof. destruct a as [[]|[]], b as [[]|[]], c as [[]|[]]; reflexivity. Qed.

Lemma at_in_range (periodic : bool) (prev : list bool) (i : Z) b :
  0 <= i -> prev !! Z.to_nat i = Some b -> Spec.at_ periodic prev i = b.
Proof.
  intros Hi Hb. pose proof (lookup_lt_Some _ _ _ Hb) as Hlt.
  unfold Spec.at_. destruct periodic.
  - rewrite Z.mod_small by lia. by rewrite Hb.
  - rewrite bool_decide_eq_true_2 by lia. by rewrite Hb.
Qed.

Section rule_thirty_transition.
Variables (periodic : bool) (prev next : list bool) (cs : list (list bool)) (t : Z).
Let L := Z.of_nat (length prev).
Let T := Z.to_nat t.
Hypothesis HL : 2 <= L.
Hypothesis Ht : 0 <= t.
Hypothesis Hprev : cs !! T = Some prev.
Hypothesis Hnext : cs !! S T = Some next.
Hypothesis Hlen : length next = length prev.

Let cell_ok (i : Z) : 0 <= i < L -> exists b, prev !! Z.to_nat i = Some b.
Proof. intros Hi. apply lookup_lt_is_Some_2. lia. Qed.

Let inv (i : Z) (cs' : list (list bool)) : Prop :=
  1 <= i /\ exists next', cs' = <[S T := next']> cs /\ length next' = length prev /\
    forall k : nat, 1 <= Z.of_nat k < i ->
      next' !! k = Some (Spec.rule30_cell periodic prev (Z.of_nat k)).

Let read_prev (cs' : list (list bool)) next' (i : Z) b :
  cs' = <[S T := next']> cs -> 0 <= i -> prev !! Z.to_nat i = Some b ->
  read2 cs' t i = Ok (NpBool b).
Proof.
  intros -> Hi Hb. eapply read2_Some; [done | done | | done].
  rewrite list_lookup_insert_ne by lia. done.
Qed.

Let write_next (cs' : list (list bool)) next' (i : Z) v :
  cs' = <[S T := next']> cs -> length next' = length prev -> 0 <= i < L ->
  write2 cs' (t + 1) i v = Ok (<[S T := <[Z.to_nat i := v]> next']> cs).
Proof.
  intros -> Hl Hi.
  assert (Z.to_nat (t + 1) = S T) as HT by lia.
  pose proof (lookup_lt_Some _ _ _ Hnext) as Hlt.
  erewrite write2_Some; [| lia | | rewrite HT; apply list_lookup_insert_eq; done].
  - rewrite HT. by rewrite list_insert_insert_eq.
  - lia.
Qed.

Lemma rule_thirty_interior_loop :
  exists cs', for_each (range 1 (L - 1)) (rule_thirty_interior t) cs = Ok cs' /\ inv (L - 1) cs'.
Proof.
  apply (for_each_range inv _ (L - 1)) with (k := Z.to_nat (L - 1 - 1)); [| lia | done |].
  - intros i cs' Hi (Hi1 & next' & Hcs' & Hl & Hcells).
    destruct (cell_ok (i - 1)) as [a Ha]; [lia|].
    destruct (cell_ok i) as [b Hb]; [lia|].
    destruct (cell_ok (i + 1)) as [c Hc]; [lia|].
    unfold rule_thirty_interior.
    rewrite (read_prev _ _ (i - 1) _ Hcs') by (exact Ha || lia). run.
    rewrite (read_prev _ _ i _ Hcs') by (exact Hb || lia). run.
    rewrite (read_prev _ _ (i + 1) _ Hcs') by (exact Hc || lia). run.
    rewrite dict_get_thirty_rule. cbn [stored default truth].
    rewrite (write_next _ _ _ _ Hcs' Hl) by lia.
    eexists. split; [done|]. split; [lia|].
    eexists. split; [done|]. split; [by rewrite length_insert|].
    intros k Hk. destruct (decide (k = Z.to_nat i)) as [->|Hne].
    + rewrite list_lookup_insert_eq by lia. f_equal.
      unfold Spec.rule30_cell. rewrite Z2Nat.id by lia.
      by rewrite (at_in_range _ _ (i - 1) a), (at_in_range _ _ i b),
        (at_in_range _ _ (i + 1) c) by (done || lia).
    + rewrite list_lookup_insert_ne by done. apply Hcells. lia.
  - split; [lia|]. exists next.
    split; [by rewrite list_insert_id | split; [done | intros k Hk; lia]].
Qed.

(** One pass through the loop body writes the next generation, as the
    specification has it, into row [current_step + 1]. *)
Lemma rule_thirty_body_step :
  rule_thirty_body L periodic t cs
  = Ok (<[S T := Spec.rule30_step periodic prev]> cs).
Proof.
  unfold rule_thirty_body.
  destruct rule_thirty_interior_loop as (cs1 & -> & _ & next1 & Hcs1 & Hl1 & Hcells). run.
  destruct (cell_ok 0) as [p0 Hp0]; [lia|].
  destruct (cell_ok 1) as [p1 Hp1]; [lia|].
  destruct (cell_ok (L - 2)) as [q1 Hq1]; [lia|].
  destruct (cell_ok (L - 1)) as [q0 Hq0]; [lia|].
  assert (Spec.rule30_step periodic prev
          = <[Z.to_nat (L - 1) := Spec.rule30_cell periodic prev (L - 1)]>
              (<[Z.to_nat 0 := Spec.rule30_cell periodic prev 0]> next1)) as Hrow.
  { apply list_eq. intros k. unfold Spec.rule30_step. rewrite list_lookup_imap.
    destruct (decide (k < length prev)%nat) as [Hk|Hk].
    - destruct (lookup_lt_is_Some_2 prev k Hk) as [x ->]. cbn [fmap option_fmap option_map].
      destruct (decide (k = Z.to_nat (L - 1))) as [->|Hk1].
      + rewrite list_lookup_insert_eq by (rewrite length_insert; lia).
        by rewrite Z2Nat.id by lia.
      + rewrite list_lookup_insert_ne by done.
        destruct (decide (k = Z.to_nat 0)) as [->|Hk0].
        * rewrite list_lookup_insert_eq by lia. done.
        * rewrite list_lookup_insert_ne by done. symmetry. apply Hcells. lia.
    - rewrite (lookup_ge_None_2 prev) by lia. cbn.
      symmetry. apply lookup_ge_None_2. rewrite !length_insert. lia. }
  rewrite Hrow. clear Hrow.
  assert (forall v0, <[S T := <[Z.to_nat 0 := v0]> next1]> cs
                     = <[S T := <[Z.to_nat 0 := v0]> next1]> cs) as Hcs2 by done.
  destruct periodic.
  - rewrite (read_prev _ _ (L - 1) _ Hcs1) by (exact Hq0 || lia). run.
    rewrite (read_prev _ _ 0 _ Hcs1) by (exact Hp0 || lia). run.
    rewrite (read_prev _ _ 1 _ Hcs1) by (exact Hp1 || lia). run.
    rewrite dict_get_thirty_rule. cbn [stored default truth].
    rewrite (write_next _ _ _ _ Hcs1 Hl1) by lia. run.
    rewrite (read_prev _ _ (L - 2) _ (Hcs2 _)) by (exact Hq1 || lia). run.
    rewrite (read_prev _ _ (L - 1) _ (Hcs2 _)) by (exact Hq0 || lia). run.
    rewrite (read_prev _ _ 0 _ (Hcs2 _)) by (exact Hp0 || lia). run.
    rewrite dict_get_thirty_rule. cbn [stored default truth].
    rewrite (write_next _ _ _ _ (Hcs2 _)) by (rewrite ?length_insert; done || lia).
    do 3 f_equal.
    + unfold Spec.rule30_cell.
      rewrite (at_in_range true prev (L - 1 - 1) q1), (at_in_range true prev (L - 1) q0)
        by (done || lia || (by replace (L - 1 - 1) with (L - 2) by lia)).
      f_equal. unfold Spec.at_. fold L.
      replace (L - 1 + 1) with L by lia. rewrite Z.mod_same by lia. by rewrite Hp0.
    + f_equal. unfold Spec.rule30_cell.
      rewrite (at_in_range true prev 0 p0), (at_in_range true prev (0 + 1) p1) by (done || lia).
      f_equal. unfold Spec.at_. fold L.
      replace ((0 - 1) `mod` L) with (L - 1); [by rewrite Hq0|].
      apply Z.mod_unique with (-1); lia.
  - rewrite (read_prev _ _ 0 _ Hcs1) by (exact Hp0 || lia). run.
    rewrite (read_prev _ _ 1 _ Hcs1) by (exact Hp1 || lia). run.
    rewrite dict_get_thirty_rule. cbn [stored default truth].
    rewrite (write_next _ _ _ _ Hcs1 Hl1) by lia. run.
    rewrite (read_prev _ _ (L - 2) _ (Hcs2 _)) by (exact Hq1 || lia). run.
    rewrite (read_prev _ _ (L - 1) _ (Hcs2 _)) by (exact Hq0 || lia). run.
    rewrite dict_get_thirty_rule. cbn [stored default truth].
    rewrite (write_next _ _ _ _ (Hcs2 _)) by (rewrite ?length_insert; done || lia).
    do 3 f_equal.
    + unfold Spec.rule30_cell.
      rewrite (at_in_range false prev (L - 1 - 1) q1), (at_in_range false prev (L - 1) q0)
        by (done || lia || (by replace (L - 1 - 1) with (L - 2) by lia)).
      f_equal. unfold Spec.at_. fold L. by rewrite bool_decide_eq_false_2 by lia.
    + f_equal. unfold Spec.rule30_cell.
      rewrite (at_in_range false prev 0 p0), (at_in_range false prev (0 + 1) p1) by (done || lia).
      done.
Qed.
End rule_thirty_transition.

Lemma rule30_step_length (periodic : bool) (prev : list bool) :
  length (Spec.rule30_step periodic prev) = length prev.
Proof. apply length_imap. Qed.

Lemma rule30_iter_length (periodic : bool) (initial : list bool) (k : nat) :
  length (Nat.iter k (Spec.rule30_step periodic) initial) = length initial.
Proof.
  induction k as [|k IH]; [done|].
  cbn [Nat.iter nat_rect]. by rewrite rule30_step_length.
Qed.

(** On a lattice of at least two cells [rule_thirty] returns the state
    reached from the initial one by [nsteps - 1] transitions of Rule 30, in
    both boundary modes. *)
Lemma rule_thirty_advance (initial_state : list bool) (nsteps : Z) (periodic : bool) :
  (2 <= length initial_state)%nat -> 1 <= nsteps ->
  rule_thirty initial_state nsteps periodic
  = Ok (Array1 (Spec.advance (Spec.rule30_step periodic) initial_state nsteps)).
Proof.
  intros HL Hn. unfold rule_thirty, rule_thirty_run.
  set (L := length initial_state) in *.
  set (n := Z.to_nat nsteps).
  set (step := Spec.rule30_step periodic).
  unfold dim. rewrite bool_decide_eq_true_2 by lia. run. fold n.
  rewrite setitem_in_range by (unfold full2; rewrite length_replicate; lia). run.
  set (P := fun (t : Z) (cs : list (list bool)) =>
              length cs = n /\ Forall (fun row => length row = L) cs /\
              cs !! Z.to_nat t = Some (Nat.iter (Z.to_nat t) step initial_state)).
  edestruct (while_count (R := Empty_set) nsteps P) as (cs & -> & Hlen & Hrows & Hlast);
    [ | | reflexivity | | | ].
  - intros t cs Ht (Hlen & Hrows & Hcur). cbn beta iota.
    destruct (lookup_lt_is_Some_2 cs (S (Z.to_nat t))) as [next Hnext]; [lia|].
    pose proof (Forall_lookup_1 _ _ _ _ Hrows Hnext) as Hnl. cbn beta in Hnl.
    pose proof (rule30_iter_length periodic initial_state (Z.to_nat t)) as Hpl. fold step L in Hpl.
    rewrite <- Hpl.
    rewrite (rule_thirty_body_step periodic _ next cs t) by (done || lia).
    run. eexists. split; [reflexivity|].
    split; [by rewrite length_insert|]. split.
    + apply Forall_insert; [done|].
      unfold step at 1. by rewrite rule30_step_length.
    + replace (Z.to_nat (t + 1)) with (S (Z.to_nat t)) by lia.
      rewrite list_lookup_insert_eq by lia. done.
  - lia.
  - lia.
  - split; [|split].
    + rewrite length_insert. apply length_replicate.
    + apply Forall_insert; [|done]. apply Forall_replicate, length_replicate.
    + apply list_lookup_insert_eq. unfold full2. rewrite length_replicate. lia.
  - run. erewrite getitem_Some; [ | lia | exact Hlast ]. done.
Qed.

(** With [nsteps = 1] no transition is made, on a lattice of any length. *)
Lemma rule_thirty_one (initial_state : list bool) (periodic : bool) :
  rule_thirty initial_state 1 periodic = Ok (Array1 initial_state).
Proof. reflexivity. Qed.

(** On a lattice of fewer than two cells the first transition reads a cell
    that does not exist, in both boundary modes. *)
Lemma rule_thirty_short (initial_state : list bool) (nsteps : Z) (periodic : bool) :
  (length initial_state < 2)%nat -> 2 <= nsteps ->
  rule_thirty initial_state nsteps periodic = Raise IndexError.
Proof.
  intros HL Hn. unfold rule_thirty, rule_thirty_run, dim.
  rewrite bool_decide_eq_true_2 by lia. run.
  destruct (Z.to_nat nsteps) as [|fuel] eqn:Hfuel; [lia|].
  cbn [full2 replicate while]. unfold loop_cond at 1. cbn [fst].
  rewrite setitem_in_range by (cbn [length]; lia). run.
  rewrite bool_decide_eq_true_2 by lia.
  destruct initial_state as [|x [|y l]]; [ | | cbn in HL; lia ];
    destruct periodic; reflexivity.
Qed.

(** ** Game of Life: the buffer and the cell update *)

Lemma shape2_shaped (l : list (list bool)) (rows cols : nat) :
  shape2 l = Ok (rows, cols) -> shaped2 rows cols l /\ (1 <= rows)%nat.
Proof.
  destruct l as [|r rest]; [done|]. cbn [shape2].
  destruct (forallb _ rest) eqn:Hall; [|done].
  intros [= <- <-]. split; [split|]; [done | | cbn [length]; lia].
  constructor; [done|].
  apply Forall_forall. intros row Hrow.
  rewrite forallb_forall in Hall. by apply Nat.eqb_eq, Hall.
Qed.

Lemma assign_slice_length {A} (src dst : list A) :
  (1 + length src <= length dst)%nat ->
  length (assign_slice 1 src dst) = length dst.
Proof.
  intros H. unfold assign_slice.
  rewrite !length_app, length_take, length_drop. lia.
Qed.

Lemma assign_interior_shaped (rows cols : nat) (src dst : list (list bool)) :
  shaped2 rows cols src -> shaped2 (rows + 2) (cols + 2) dst ->
  shaped2 (rows + 2) (cols + 2) (assign_interior src dst).
Proof.
  intros [Hs Hsf] [Hd Hdf]. unfold assign_interior. split.
  - rewrite !length_app, length_take, length_zip_with, length_take, !length_drop. lia.
  - rewrite !Forall_app. split; [by apply Forall_take|]. split; [|by apply Forall_drop].
    apply Forall_lookup. intros i row Hrow.
    apply lookup_zip_with_Some in Hrow as (s & d & -> & Hsi & Hdi).
    apply lookup_take_Some in Hdi as [Hdi _]. rewrite lookup_drop in Hdi.
    pose proof (Forall_lookup_1 _ _ _ _ Hsf Hsi) as Hsl.
    pose proof (Forall_lookup_1 _ _ _ _ Hdf Hdi) as Hdl. cbn beta in Hsl, Hdl.
    rewrite assign_slice_length; lia.
Qed.

Section life_buffer.
Variables (initial_state : list (list bool)) (nsteps : Z) (rows cols : nat).
Hypothesis Hshape : shaped2 rows cols initial_state.
Hypothesis Hn : 1 <= nsteps.

Let n := Z.to_nat nsteps.
Let g0 := generation0 initial_state rows cols.

Lemma padded_ok :
  padded initial_state nsteps rows cols
  = Ok (g0 :: replicate (n - 1) (full2 (rows + 2) (cols + 2))).
Proof.
  unfold padded, dim. rewrite bool_decide_eq_true_2 by lia. run. fold n.
  unfold full3. destruct n as [|n'] eqn:Hn'; [lia|].
  replace (S n' - 1)%nat with n' by lia. reflexivity.
Qed.

Lemma generation0_shaped : shaped2 (rows + 2) (cols + 2) g0.
Proof. by apply assign_interior_shaped, shaped2_full. Qed.

Lemma padded_shaped :
  shaped3 n (rows + 2) (cols + 2)
          (g0 :: replicate (n - 1) (full2 (rows + 2) (cols + 2))).
Proof.
  split.
  - cbn [length]. rewrite length_replicate. lia.
  - constructor; [apply generation0_shaped|].
    apply Forall_replicate, shaped2_full.
Qed.
End life_buffer.

Section life_cells.
Variables (n r c : nat) (cs : list (list (list bool))) (t i j : Z).
Hypothesis Hcs : shaped3 n (r + 2) (c + 2) cs.
Hypothesis Ht : 0 <= t < Z.of_nat n.
Hypothesis Hi : 1 <= i <= Z.of_nat r.
Hypothesis Hj : 1 <= j <= Z.of_nat c.

Lemma neighbors_in_bounds : exists l, neighbors cs t i j = Ok l.
Proof.
  unfold neighbors.
  destruct (read3_shaped _ _ _ cs t (i - 1) (j - 1) Hcs) as [n1 ->]; [lia..|]. run.
  destruct (read3_shaped _ _ _ cs t (i - 1) j Hcs) as [n2 ->]; [lia..|]. run.
  destruct (read3_shaped _ _ _ cs t (i - 1) (j + 1) Hcs) as [n3 ->]; [lia..|]. run.
  destruct (read3_shaped _ _ _ cs t i (j - 1) Hcs) as [n4 ->]; [lia..|]. run.
  destruct (read3_shaped _ _ _ cs t i (j + 1) Hcs) as [n5 ->]; [lia..|]. run.
  destruct (read3_shaped _ _ _ cs t (i + 1) (j - 1) Hcs) as [n6 ->]; [lia..|]. run.
  destruct (read3_shaped _ _ _ cs t (i + 1) j Hcs) as [n7 ->]; [lia..|]. run.
  destruct (read3_shaped _ _ _ cs t (i + 1) (j + 1) Hcs) as [n8 ->]; [lia..|]. run.
  by eexists.
Qed.

(** The cell read from the array is a [numpy.bool_]: neither [is True] nor
    [is False] holds, and the [if] statement writes nothing. *)
Lemma decide_cell_writes_nothing (num_alive : nat) :
  decide_cell cs t i j num_alive = Ok cs.
Proof.
  unfold decide_cell.
  destruct (read3_shaped _ _ _ cs t i j Hcs) as [b ->]; [lia..|]. run.
  reflexivity.
Qed.

Lemma life_cell_writes_nothing : life_cell t i j cs = Ok cs.
Proof.
  unfold life_cell. destruct neighbors_in_bounds as [l ->]. run.
  apply decide_cell_writes_nothing.
Qed.
End life_cells.

(** A [for] loop whose iterations all leave the state as it is. *)
Lemma for_each_fixed {S} (body : Z -> S -> result S) (a b : Z) (s : S) :
  (forall i, a <= i < b -> body i s = Ok s) ->
  for_each (range a b) body s = Ok s.
Proof.
  intros Hbody. destruct (decide (a <= b)) as [Hab|Hab].
  - destruct (for_each_range (fun i s' => a <= i /\ s' = s) body b)
      with (k := Z.to_nat (b - a)) (a := a) (s := s) as (s' & -> & _ & ->);
      [ | done | done | done | done ].
    intros i s' Hi [Ha ->]. exists s. split; [apply Hbody; lia | split; [lia | done]].
  - by rewrite range_empty by lia.
Qed.

Lemma interior_full (rows cols : nat) :
  interior rows cols (full2 (rows + 2) (cols + 2)) = full2 rows cols.
Proof.
  unfold interior, full2.
  rewrite drop_replicate, take_replicate, fmap_replicate.
  rewrite drop_replicate, take_replicate.
  f_equal; [lia|]. f_equal. lia.
Qed.

Lemma later_generation (rows cols n : nat) (g0 : list (list bool)) (k : Z) :
  1 <= k < Z.of_nat n ->
  getitem (g0 :: replicate (n - 1) (full2 (rows + 2) (cols + 2))) k
  = Ok (full2 (rows + 2) (cols + 2)).
Proof.
  intros Hk. apply getitem_Some; [lia|].
  replace (Z.to_nat k) with (S (Z.to_nat k - 1)) by lia. cbn [lookup list_lookup].
  apply lookup_replicate_2. lia.
Qed.

(** ** [life] *)

Section life_run.
Variables (initial_state : list (list bool)) (nsteps : Z) (rows cols : nat).
Hypothesis Hshape : shape2 initial_state = Ok (rows, cols).

(** With [nsteps = 1] the loop, and so the [return] statement in it, is
    never reached. *)
Lemma life_one : nsteps = 1 -> life initial_state nsteps = Ok None_.
Proof.
  intros ->. unfold life. rewrite Hshape. run.
  destruct (shape2_shaped _ _ _ Hshape) as [Hs _].
  rewrite (padded_ok _ 1 rows cols) by done. run.
  by rewrite while_skip.
Qed.

(** With [nsteps >= 2] the first pass through the loop body writes nothing
    and returns generation [nsteps - 1], which [np.full] filled with
    [False]. *)
Lemma life_dead : 2 <= nsteps -> life initial_state nsteps = Ok (Array2 (full2 rows cols)).
Proof.
  intros Hn. unfold life. rewrite Hshape. run.
  destruct (shape2_shaped _ _ _ Hshape) as [Hs _].
  rewrite (padded_ok _ nsteps rows cols) by (done || lia). run.
  pose proof (padded_shaped initial_state nsteps rows cols Hs ltac:(lia)) as Hcs.
  set (cs := generation0 initial_state rows cols :: _) in *.
  destruct (Z.to_nat nsteps) as [|fuel] eqn:Hfuel; [lia|].
  cbn [while]. unfold loop_cond at 1. cbn [fst].
  rewrite bool_decide_eq_true_2 by lia. unfold life_body.
  rewrite for_each_fixed.
  - run. unfold cs. rewrite later_generation by lia. run.
    by rewrite interior_full.
  - intros i Hi. apply for_each_fixed. intros j Hj.
    eapply life_cell_writes_nothing; [exact Hcs | lia..].
Qed.
End life_run.

(** ** [life_periodic]: the border *)

Lemma write3_Some (a : list (list (list bool))) (t i j : Z) slab row v :
  0 <= t -> 0 <= i -> 0 <= j < Z.of_nat (length row) ->
  a !! Z.to_nat t = Some slab -> slab !! Z.to_nat i = Some row ->
  write3 a t i j v
  = Ok (<[Z.to_nat t := <[Z.to_nat i := <[Z.to_nat j := v]> row]> slab]> a).
Proof.
  intros Ht Hi Hj Hslab Hrow. unfold write3.
  rewrite (getitem_Some _ _ _ Ht Hslab). run.
  rewrite (write2_Some _ _ _ row) by done. run.
  apply setitem_in_range. apply lookup_lt_Some in Hslab. lia.
Qed.

Lemma copy_row_Some (a : list (list (list bool))) (t dst src : Z) slab row :
  0 <= t -> 0 <= src -> 0 <= dst < Z.of_nat (length slab) ->
  a !! Z.to_nat t = Some slab -> slab !! Z.to_nat src = Some row ->
  copy_row a t dst src = Ok (<[Z.to_nat t := <[Z.to_nat dst := row]> slab]> a).
Proof.
  intros Ht Hsrc Hdst Hslab Hrow. unfold copy_row.
  rewrite (getitem_Some _ _ _ Ht Hslab). run.
  rewrite (getitem_Some _ _ _ Hsrc Hrow). run.
  rewrite setitem_in_range by done. run.
  apply setitem_in_range. apply lookup_lt_Some in Hslab. lia.
Qed.

Lemma map_result_fmap {A B} (f : A -> result B) (g : A -> B) (l : list A) :
  Forall (fun x => f x = Ok (g x)) l -> map_result f l = Ok (g <$> l).
Proof.
  induction 1 as [|x l Hx _ IH]; [done|].
  cbn [map_result]. rewrite Hx. run. rewrite IH. done.
Qed.

Lemma copy_col_Some (a : list (list (list bool))) (t dst src : Z) slab (c : nat) :
  0 <= t -> 0 <= src < Z.of_nat c -> 0 <= dst < Z.of_nat c ->
  a !! Z.to_nat t = Some slab -> Forall (fun row => length row = c) slab ->
  copy_col a t dst src
  = Ok (<[Z.to_nat t := copy_cell (Z.to_nat dst) (Z.to_nat src) <$> slab]> a).
Proof.
  intros Ht Hsrc Hdst Hslab Hrows. unfold copy_col.
  rewrite (getitem_Some _ _ _ Ht Hslab). run.
  rewrite (map_result_fmap _ (copy_cell (Z.to_nat dst) (Z.to_nat src))).
  - run. apply setitem_in_range. apply lookup_lt_Some in Hslab. lia.
  - rewrite Forall_forall in Hrows. apply Forall_forall. intros row Hrow.
    apply Hrows in Hrow.
    destruct (lookup_lt_is_Some_2 row (Z.to_nat src)) as [x Hx]; [lia|].
    rewrite (getitem_Some _ _ x) by (done || lia). run.
    rewrite setitem_in_range by lia. unfold copy_cell. by rewrite Hx.
Qed.

Lemma copy_cell_length (dst src : nat) (row : list bool) :
  length (copy_cell dst src row) = length row.
Proof. apply length_insert. Qed.

Lemma copy_cell_shaped (r c dst src : nat) (slab : list (list bool)) :
  shaped2 r c slab -> shaped2 r c (copy_cell dst src <$> slab).
Proof.
  intros [Hl Hf]. split; [by rewrite length_fmap|].
  apply Forall_fmap. rewrite Forall_forall in Hf. apply Forall_forall.
  intros row Hrow. cbn. rewrite copy_cell_length. by apply Hf.
Qed.

(** The border assignments leave the interior alone. *)
Lemma interior_insert_top (rows cols : nat) (slab : list (list bool)) row :
  interior rows cols (<[O := row]> slab) = interior rows cols slab.
Proof. unfold interior. by rewrite drop_insert_lt by lia. Qed.

Lemma interior_insert_bottom (rows cols : nat) (slab : list (list bool)) row :
  interior rows cols (<[S rows := row]> slab) = interior rows cols slab.
Proof.
  unfold interior. rewrite drop_insert_ge by lia.
  by rewrite take_insert_ge by lia.
Qed.

Lemma interior_copy_cell (rows cols dst src : nat) (slab : list (list bool)) :
  dst = O \/ dst = S cols ->
  interior rows cols (copy_cell dst src <$> slab) = interior rows cols slab.
Proof.
  intros Hdst. unfold interior.
  rewrite <- fmap_drop, <- fmap_take, <- list_fmap_compose.
  apply list_fmap_ext. intros _ row _. cbn. unfold copy_cell.
  destruct Hdst as [-> | ->].
  - by rewrite drop_insert_lt by lia.
  - rewrite drop_insert_ge by lia. by rewrite take_insert_ge by lia.
Qed.

Lemma interior_assign (rows cols : nat) (src : list (list bool)) :
  shaped2 rows cols src ->
  interior rows cols (assign_interior src (full2 (rows + 2) (cols + 2))) = src.
Proof.
  intros [Hl Hf]. unfold interior, assign_interior.
  assert (length (full2 (rows + 2) (cols + 2)) = (rows + 2)%nat) as Hfl
    by apply length_replicate.
  rewrite drop_app_length' by (rewrite length_take; lia).
  rewrite take_app_length'
    by (rewrite length_zip_with, length_take, length_drop; lia).
  apply list_eq. intros i. rewrite list_lookup_fmap, lookup_zip_with.
  destruct (src !! i) as [row|] eqn:Hrow; [|done]. cbn.
  pose proof (lookup_lt_Some _ _ _ Hrow) as Hi.
  pose proof (Forall_lookup_1 _ _ _ _ Hf Hrow) as Hrl. cbn beta in Hrl.
  rewrite lookup_take_lt by lia. rewrite lookup_drop.
  unfold full2. rewrite lookup_replicate_2 by lia. cbn.
  unfold assign_slice. rewrite drop_app_length' by (rewrite length_take, length_replicate; lia).
  by rewrite take_app_length' by lia.
Qed.

Section life_periodic_border.
Variables (rows cols : nat).
Let full := full2 (rows + 2) (cols + 2).

(** A border assignment on generation 0: the buffer keeps its shape and
    its interior, and the later generations are not touched. *)
Let kept (src : list (list bool)) (g0 : list (list bool)) : Prop :=
  shaped2 (rows + 2) (cols + 2) g0 /\ interior rows cols g0 = src.

Lemma life_periodic_init_ok (initial_state : list (list bool)) (nsteps : Z) :
  shaped2 rows cols initial_state -> 1 <= nsteps ->
  exists g0,
    life_periodic_init initial_state nsteps rows cols
    = Ok (g0 :: replicate (Z.to_nat nsteps - 1) full)
    /\ shaped2 (rows + 2) (cols + 2) g0 /\ interior rows cols g0 = initial_state.
Proof.
  intros Hshape Hn. unfold life_periodic_init.
  rewrite (padded_ok _ nsteps rows cols) by done. run. fold full.
  set (rest := replicate (Z.to_nat nsteps - 1) full).
  assert (kept initial_state (generation0 initial_state rows cols)) as [Hs Hi].
  { split; [by apply generation0_shaped | by apply interior_assign]. }
  revert Hs Hi. generalize (generation0 initial_state rows cols). intros g0 Hs Hi.
  (* line 157 *)
  destruct (shaped2_lookup _ _ _ rows Hs) as (rowR & HrowR & HlenR); [lia|].
  destruct (lookup_lt_is_Some_2 rowR 1) as [v Hv]; [lia|].
  rewrite (read3_Some _ 0 (Z.of_nat rows) 1 g0 rowR v)
    by (done || lia || by rewrite ?Nat2Z.id). run. cbn [truth].
  destruct (shaped2_lookup _ _ _ O Hs) as (row0 & Hrow0 & Hlen0); [lia|].
  rewrite (write3_Some _ 0 0 1 g0 row0) by (done || lia). run.
  change (<[Z.to_nat 0 := ?x]> (g0 :: rest)) with (x :: rest).
  assert (kept initial_state (<[Z.to_nat 0 := <[Z.to_nat 1 := v]> row0]> g0)) as [Hs1 Hi1].
  { split; [apply shaped2_insert; [done | by rewrite length_insert]|].
    change (Z.to_nat 0) with O. by rewrite interior_insert_top. }
  revert Hs1 Hi1. generalize (<[Z.to_nat 0 := <[Z.to_nat 1 := v]> row0]> g0).
  clear dependent g0. intros g0 Hs Hi.
  (* line 158 *)
  destruct (shaped2_lookup _ _ _ 1%nat Hs) as (row1 & Hrow1 & Hlen1); [lia|].
  rewrite (copy_row_Some _ 0 (Z.of_nat rows + 1) 1 g0 row1)
    by (done || (destruct Hs as [-> _]; lia) || lia). run.
  change (<[Z.to_nat 0 := ?x]> (g0 :: rest)) with (x :: rest).
  replace (Z.to_nat (Z.of_nat rows + 1)) with (S rows) by lia.
  assert (kept initial_state (<[S rows := row1]> g0)) as [Hs1 Hi1].
  { split; [by apply shaped2_insert | by rewrite interior_insert_bottom]. }
  revert Hs1 Hi1. generalize (<[S rows := row1]> g0).
  clear dependent g0. intros g0 Hs Hi.
  (* line 159 *)
  rewrite (copy_col_Some _ 0 0 (Z.of_nat cols) g0 (cols + 2))
    by (done || lia || apply Hs). run.
  change (<[Z.to_nat 0 := ?x]> (g0 :: rest)) with (x :: rest).
  assert (kept initial_state (copy_cell (Z.to_nat 0) (Z.to_nat (Z.of_nat cols)) <$> g0))
    as [Hs1 Hi1].
  { split; [by apply copy_cell_shaped|]. rewrite interior_copy_cell; [done | by left]. }
  revert Hs1 Hi1. generalize (copy_cell (Z.to_nat 0) (Z.to_nat (Z.of_nat cols)) <$> g0).
  clear dependent g0. intros g0 Hs Hi.
  (* line 160 *)
  rewrite (copy_col_Some _ 0 (Z.of_nat cols + 1) 1 g0 (cols + 2))
    by (done || lia || apply Hs).
  change (<[Z.to_nat 0 := ?x]> (g0 :: rest)) with (x :: rest).
  eexists. split; [reflexivity|]. split; [by apply copy_cell_shaped|].
  rewrite interior_copy_cell; [done | right; lia].
Qed.

(** Lines 186 to 189 on a generation that is all [False]: nothing
    changes. *)
Lemma refresh_border_full (cs : list (list (list bool))) (t : Z) :
  0 <= t -> cs !! Z.to_nat t = Some full -> refresh_border rows cols t cs = Ok cs.
Proof.
  intros Ht Hfull. unfold refresh_border.
  assert (forall k, (k < rows + 2)%nat -> full !! k = Some (replicate (cols + 2) false)) as Hrow.
  { intros k Hk. by apply lookup_replicate_2. }
  assert (length full = (rows + 2)%nat) as Hlen by apply length_replicate.
  assert (forall k, <[k := replicate (cols + 2) false]> full = full) as Hins.
  { intros k. apply insert_replicate. }
  assert (forall dst src, (src < cols + 2)%nat -> copy_cell dst src <$> full = full) as Hcol.
  { intros dst src Hsrc. unfold full, full2. rewrite fmap_replicate. f_equal.
    unfold copy_cell. rewrite lookup_replicate_2 by done. apply insert_replicate. }
  rewrite (copy_row_Some _ t 0 (Z.of_nat rows) full (replicate (cols + 2) false))
    by (done || lia || (apply Hrow; lia)).
  rewrite Hins, (list_insert_id _ _ _ Hfull). run.
  rewrite (copy_row_Some _ t (Z.of_nat rows + 1) 1 full (replicate (cols + 2) false))
    by (done || lia || (apply Hrow; lia)).
  rewrite Hins, (list_insert_id _ _ _ Hfull). run.
  rewrite (copy_col_Some _ t 0 (Z.of_nat cols) full (cols + 2))
    by (done || lia || apply shaped2_full).
  rewrite Hcol by lia. rewrite (list_insert_id _ _ _ Hfull). run.
  rewrite (copy_col_Some _ t (Z.of_nat cols + 1) 1 full (cols + 2))
    by (done || lia || apply shaped2_full).
  rewrite Hcol by lia. by rewrite (list_insert_id _ _ _ Hfull).
Qed.
End life_periodic_border.

(** ** [life_periodic]: the loop *)

Section life_periodic_rows.
Variables (n rows cols : nat) (cs : list (list (list bool))) (t : Z).
Hypothesis Hcs : shaped3 n (rows + 2) (cols + 2) cs.
Hypothesis Ht : 0 <= t < Z.of_nat n.
Hypothesis Hcols : (1 <= cols)%nat.

(** The inner loop has at least one iteration, which assigns
    [neighbors_list] and [j]; the [if] statement after it writes
    nothing. *)
Lemma life_periodic_row_ok (i : Z) (s : periodic_state) :
  1 <= i <= Z.of_nat rows -> current_state_of s = cs ->
  exists s', life_periodic_row cols t i s = Ok s' /\ current_state_of s' = cs.
Proof.
  intros Hi Hs. unfold life_periodic_row.
  destruct (for_each_range
              (fun j s' => 1 <= j /\ current_state_of s' = cs /\
                           (1 < j -> exists l, neighbors_list_of s' = Some l
                                               /\ j_of s' = Some (j - 1)))
              (life_periodic_inner t i) (Z.of_nat cols + 1))
    with (k := cols) (a := 1) (s := s) as (s1 & -> & _ & Hs1 & Hloc);
    [ | lia | lia | split; [lia | split; [done | lia]] | ].
  - intros j s' Hj (Hj1 & Hs' & _). unfold life_periodic_inner. rewrite Hs'.
    destruct (neighbors_in_bounds n rows cols cs t i j Hcs) as [l ->]; [lia..|]. run.
    eexists. split; [reflexivity|]. cbn. split; [lia|]. split; [done|].
    intros _. exists l. split; [done|]. f_equal. lia.
  - run. destruct Hloc as (l & -> & ->); [lia|]. cbn [local]. run.
    rewrite Hs1.
    rewrite (decide_cell_writes_nothing n rows cols cs t i _ Hcs) by lia. run.
    by eexists.
Qed.

Lemma life_periodic_rows_ok (s : periodic_state) :
  current_state_of s = cs ->
  exists s', for_each (range 1 (Z.of_nat rows + 1)) (life_periodic_row cols t) s = Ok s'
             /\ current_state_of s' = cs.
Proof.
  intros Hs.
  destruct (for_each_range (fun i s' => 1 <= i /\ current_state_of s' = cs)
                           (life_periodic_row cols t) (Z.of_nat rows + 1))
    with (k := rows) (a := 1) (s := s) as (s1 & -> & _ & Hs1);
    [ | lia | lia | done | by eexists ].
  intros i s' Hi (Hi1 & Hs').
  destruct (life_periodic_row_ok i s') as (s2 & -> & Hs2); [lia | done |].
  exists s2. split; [done | split; [lia | done]].
Qed.
End life_periodic_rows.

Section life_periodic_run.
Variables (initial_state : list (list bool)) (nsteps : Z) (rows cols : nat).
Hypothesis Hshape : shape2 initial_state = Ok (rows, cols).

(** With [nsteps = 1] the interior of generation 0 is returned. *)
Lemma life_periodic_one :
  nsteps = 1 -> life_periodic initial_state nsteps = Ok (Array2 initial_state).
Proof.
  intros ->. unfold life_periodic, life_periodic_run. rewrite Hshape. run.
  destruct (shape2_shaped _ _ _ Hshape) as [Hs _].
  destruct (life_periodic_init_ok rows cols initial_state 1 Hs) as (g0 & -> & Hg0 & Hint);
    [lia|]. run.
  rewrite while_skip. run. cbn [current_state_of].
  rewrite (getitem_Some _ (1 - 1) g0) by (lia || done). run. by rewrite Hint.
Qed.

(** With [nsteps >= 2] and at least one column no pass through the loop
    body changes the array, and generation [nsteps - 1] is still the one
    [np.full] made. *)
Lemma life_periodic_dead :
  (1 <= cols)%nat -> 2 <= nsteps ->
  life_periodic initial_state nsteps = Ok (Array2 (full2 rows cols)).
Proof.
  intros Hcols Hn. unfold life_periodic, life_periodic_run. rewrite Hshape. run.
  destruct (shape2_shaped _ _ _ Hshape) as [Hs _].
  destruct (life_periodic_init_ok rows cols initial_state nsteps Hs)
    as (g0 & -> & Hg0 & _); [lia|]. run.
  set (n := Z.to_nat nsteps).
  set (cs := g0 :: replicate (n - 1) (full2 (rows + 2) (cols + 2))).
  assert (shaped3 n (rows + 2) (cols + 2) cs) as Hcs.
  { split.
    - unfold cs. cbn [length]. rewrite length_replicate. lia.
    - constructor; [done|]. apply Forall_replicate, shaped2_full. }
  edestruct (while_count (R := Empty_set) nsteps (fun _ s => current_state_of s = cs))
    as (s & -> & Hfinal); [ | | reflexivity | | | ].
  - intros t s Ht Hs0. cbn beta iota. unfold life_periodic_body.
    destruct (life_periodic_rows_ok n rows cols cs t Hcs ltac:(lia) Hcols s Hs0)
      as (s1 & -> & Hs1). run.
    rewrite Hs1, refresh_border_full.
    + run. eexists. split; [reflexivity | done].
    + lia.
    + unfold cs. replace (Z.to_nat (t + 1)) with (S (Z.to_nat t)) by lia.
      cbn [lookup list_lookup]. apply lookup_replicate_2. lia.
  - lia.
  - lia.
  - done.
  - run. rewrite Hfinal. run. unfold cs.
    rewrite later_generation by lia. run. by rewrite interior_full.
Qed.

(** With [nsteps >= 2] and no column the inner loop of the first row has
    no iteration, and [neighbors_list] is read before any assignment. *)
Lemma life_periodic_no_column :
  cols = O -> 2 <= nsteps ->
  life_periodic initial_state nsteps = Raise UnboundLocalError.
Proof.
  intros -> Hn. unfold life_periodic, life_periodic_run. rewrite Hshape. run.
  destruct (shape2_shaped _ _ _ Hshape) as [Hs Hrows].
  destruct (life_periodic_init_ok rows 0 initial_state nsteps Hs)
    as (g0 & -> & Hg0 & _); [lia|]. run.
  destruct (Z.to_nat nsteps) as [|fuel] eqn:Hfuel; [lia|].
  cbn [while]. unfold loop_cond at 1. cbn [fst].
  rewrite bool_decide_eq_true_2 by lia.
  unfold life_periodic_body. rewrite range_first by lia.
  by rewrite (for_each_raise _ _ _ _ UnboundLocalError).
Qed.
End life_periodic_run.

(** ** The rule table *)

(** The table has eight entries, its keys are pairwise different, and every
    pattern of three booleans, Python's or numpy's, is found in it with the
    value Wolfram's rule 30 gives. *)
Lemma thirty_rule_total :
  length thirty_rule = 8%nat /\ NoDup (thirty_rule.*1) /\
  forall a b c : scalar,
    dict_get thirty_rule (a, b, c)
    = Some (Spec.wolfram 30 (truth a) (truth b) (truth c)).
Proof.
  split; [done|]. split; [|apply dict_get_thirty_rule].
  apply (bool_decide_unpack (NoDup (thirty_rule.*1))). vm_compute. exact I.
Qed.

(** ** The first pass of [life] ends the function *)

(** A pass through the body of the loop of [life] that ends without an
    exception ends in the [return] statement. *)
Lemma life_body_returns (nsteps : Z) (rows cols : nat) s r :
  life_body nsteps rows cols s = Ok r -> exists v, r = Return v.
Proof.
  unfold life_body. destruct s as [current_step current_state].
  destruct (for_each _ _ current_state) as [cs| |]; [|done..]. run.
  destruct (getitem cs (nsteps - 1)) as [slab| |]; [|done..]. run.
  intros [= <-]. by eexists.
Qed.

(** ** Calls with [nsteps < 1] *)

Lemma rule_thirty_no_step (initial_state : list bool) (nsteps : Z) (periodic : bool) :
  nsteps < 1 ->
  rule_thirty initial_state nsteps periodic
  = Raise (if bool_decide (nsteps < 0) then ValueError else IndexError).
Proof.
  intros Hn. unfold rule_thirty, rule_thirty_run, dim.
  destruct (decide (nsteps < 0)) as [H0|H0].
  - by rewrite bool_decide_eq_false_2, bool_decide_eq_true_2 by lia.
  - by assert (nsteps = 0) as -> by lia.
Qed.

Lemma padded_no_step (initial_state : list (list bool)) (nsteps : Z) (rows cols : nat) :
  nsteps < 1 ->
  padded initial_state nsteps rows cols
  = Raise (if bool_decide (nsteps < 0) then ValueError else IndexError).
Proof.
  intros Hn. unfold padded, dim.
  destruct (decide (nsteps < 0)) as [H0|H0].
  - by rewrite bool_decide_eq_false_2, bool_decide_eq_true_2 by lia.
  - by assert (nsteps = 0) as -> by lia.
Qed.

Lemma life_no_step (initial_state : list (list bool)) (nsteps : Z) (rows cols : nat) :
  shape2 initial_state = Ok (rows, cols) -> nsteps < 1 ->
  life initial_state nsteps
  = Raise (if bool_decide (nsteps < 0) then ValueError else IndexError).
Proof.
  intros Hshape Hn. unfold life. rewrite Hshape. run.
  by rewrite padded_no_step.
Qed.

Lemma life_periodic_no_step (initial_state : list (list bool)) (nsteps : Z) (rows cols : nat) :
  shape2 initial_state = Ok (rows, cols) -> nsteps < 1 ->
  life_periodic initial_state nsteps
  = Raise (if bool_decide (nsteps < 0) then ValueError else IndexError).
Proof.
  intros Hshape Hn. unfold life_periodic, life_periodic_run, life_periodic_init.
  rewrite Hshape. run. by rewrite padded_no_step.
Qed.

Lemma shape2_not_out_of_fuel (l : list (list bool)) : shape2 l <> OutOfFuel.
Proof. destruct l as [|r rest]; [done|]. cbn. by destruct (forallb _ rest). Qed.

(** ** The claims *)

(** C1.  With [nsteps = 1] every engine is to return the initial state.
    [rule_thirty] and [life_periodic] do; [life] does not: its [return]
    statement is inside the [while] loop, which has no pass when
    [nsteps = 1], so the function ends without it and yields [None].  Here
    on the grid of one live cell and the lattice of one cell that is on. *)
Theorem life_single_generation_is_None :
  life single 1 = Ok None_
  /\ life_periodic single 1 = Ok (Array2 single)
  /\ rule_thirty [true] 1 false = Ok (Array1 [true]).
Proof. repeat split; reflexivity. Qed.

(** C2.  [life] is to make [nsteps - 1] transitions and return the last
    generation.  Its first pass through the loop body returns
    [current_state[nsteps - 1]]: for the blinker and [nsteps = 3] that is a
    generation no pass has written, all dead, where two transitions of Life
    bring the blinker back. *)
Theorem life_returns_in_first_pass :
  life blinker5 3 = Ok (Array2 dead5)
  /\ Spec.advance (Spec.life_step false) blinker5 3 = blinker5
  /\ dead5 <> blinker5.
Proof. repeat split; [vm_compute; reflexivity .. | discriminate]. Qed.

(** C3.  [life_periodic] is to count the neighbours of each cell and apply
    the rule to each cell.  The count and the [if] statement come after the
    inner loop: once the first row of the glider's first transition is
    done, the array is as before, [j] is the last column and
    [neighbors_list] holds the neighbours of the last cell of the row only.
    The result for [nsteps = 2] is the dead grid, not the glider's next
    generation. *)
Theorem life_periodic_counts_once_per_row :
  (exists cs nl,
      life_periodic_init glider5 2 5 5 = Ok cs
      /\ neighbors cs 0 1 5 = Ok nl
      /\ life_periodic_row 5 0 1 (PeriodicState cs None None)
         = Ok (PeriodicState cs (Some nl) (Some 5)))
  /\ life_periodic glider5 2 = Ok (Array2 dead5)
  /\ Spec.advance (Spec.life_step true) glider5 2 = glider5_next
  /\ dead5 <> glider5_next.
Proof.
  split; [do 2 eexists; repeat split; vm_compute; reflexivity|].
  repeat split; [vm_compute; reflexivity .. | discriminate].
Qed.

(** C4.  Before each transition the whole border is to mirror the opposite
    edge of the interior.  For generation 0 line 157 assigns the single cell
    [current_state[0, 0, 1]] instead of the row [current_state[0, 0, :]]:
    on the 2 x 2 grid whose only live cell is its last one, the top border
    cell above the second column and the top left corner stay dead, while
    the cells they are to mirror, at the bottom right of the interior, are
    alive. *)
Theorem life_periodic_first_border_incomplete :
  exists cs,
    life_periodic_init corner2 2 2 2 = Ok cs
    /\ read3 cs 0 2 2 = Ok (NpBool true)
    /\ read3 cs 0 0 2 = Ok (NpBool false)
    /\ read3 cs 0 0 0 = Ok (NpBool false).
Proof. eexists. repeat split; vm_compute; reflexivity. Qed.

(** C5.  In the finite mode cells 0 and L - 1 are to be computed with
    positions -1 and L off.  For the lattice of one cell the loop body
    reads [current_state[current_step, 1]], which does not exist, where
    the transition gives the cell (off, on, off), that is on. *)
Theorem rule_thirty_single_cell_fails :
  rule_thirty [true] 2 false = Raise IndexError
  /\ Spec.advance (Spec.rule30_step false) [true] 2 = [true].
Proof. split; vm_compute; reflexivity. Qed.

(** C6.  The docstring has [rule_thirty([False, True, False], 1)] equal to
    [[True, True, True]], one application of the rule.  The loop makes
    [nsteps - 1] passes, none here, and the initial state comes back. *)
Theorem rule_thirty_docstring_example_fails :
  rule_thirty [false; true; false] 1 false = Ok (Array1 [false; true; false])
  /\ Spec.rule30_step false [false; true; false] = [true; true; true].
Proof. split; vm_compute; reflexivity. Qed.

(** The second example of the docstring, [nsteps = 3], is one transition
    short in the same way: the docstring has the state after three
    transitions. *)
Example rule_thirty_second_docstring_example :
  rule_thirty [false; false; true; false; false] 3 false
  = Ok (Array1 [true; true; false; false; true])
  /\ Spec.rule30_step false [true; true; false; false; true]
     = [true; false; true; true; true].
Proof. split; vm_compute; reflexivity. Qed.

(** C7.  A block is to stay as it is.  Both engines read the cell as a
    [numpy.bool_] and test it with [is True] and [is False], write nothing
    and return a dead grid for [nsteps = 2]. *)
Theorem still_life_block_dies :
  life block4 2 = Ok (Array2 (full2 4 4))
  /\ life_periodic block4 2 = Ok (Array2 (full2 4 4))
  /\ full2 4 4 <> block4.
Proof. repeat split; [vm_compute; reflexivity .. | discriminate]. Qed.

(** C8, as the claim has it, fails: a periodic lattice of two cells is not
    rejected, a lattice comes back. *)
Lemma rule_thirty_periodic_two_cells_accepted :
  (length [true; false] < 3)%nat
  /\ rule_thirty [true; false] 2 true = Ok (Array1 [true; false]).
Proof. split; [cbn; lia | vm_compute; reflexivity]. Qed.

(** C8, amended.  [rule_thirty] checks no length.  In periodic mode on a
    lattice of fewer than three cells, a call with [nsteps = 1] returns the
    initial state; a call on two cells returns the lattice reached by
    [nsteps - 1] transitions on the ring of two cells; a call on fewer than
    two cells with [nsteps >= 2] fails in its first transition with an
    index out of range. *)
Theorem rule_thirty_periodic_short (initial_state : list bool) (nsteps : Z) :
  (length initial_state < 3)%nat -> 1 <= nsteps ->
  rule_thirty initial_state nsteps true
  = if bool_decide (nsteps = 1) then Ok (Array1 initial_state)
    else if bool_decide (length initial_state = 2%nat)
         then Ok (Array1 (Spec.advance (Spec.rule30_step true) initial_state nsteps))
         else Raise IndexError.
Proof.
  intros HL Hn. case_bool_decide as H1.
  - subst nsteps. apply rule_thirty_one.
  - case_bool_decide as H2.
    + apply rule_thirty_advance; lia.
    + apply rule_thirty_short; lia.
Qed.

Lemma rule_thirty_periodic_short_witness :
  rule_thirty [true; false] 3 true
  = Ok (Array1 (Spec.advance (Spec.rule30_step true) [true; false] 3)).
Proof.
  apply (rule_thirty_periodic_short [true; false] 3); [cbn; lia | lia].
Defined.

(** C9.  Whatever their arguments, [lifehex] and [life_generic] return the
    constant [NotImplemented], which is no array. *)
Theorem unwritten_engines_return_NotImplemented
        {A B C D E : Type} (initial_state : A) (nsteps : B)
        (matrix : C) (environment : D) (fertility : E) :
  lifehex initial_state nsteps = Ok NotImplemented_
  /\ life_generic matrix initial_state nsteps environment fertility = Ok NotImplemented_
  /\ is_array NotImplemented_ = false
  /\ (forall a, NotImplemented_ <> Array1 a)
  /\ (forall a, NotImplemented_ <> Array2 a).
Proof. repeat split; done. Qed.

(** C10, as the claim has it, fails: on the grid of one row and no column
    [life_periodic] with [nsteps = 2] returns no grid, it reads
    [neighbors_list] before any assignment. *)
Lemma life_periodic_without_column_fails :
  shape2 [[]] = Ok (1, 0)%nat /\ life_periodic [[]] 2 = Raise UnboundLocalError.
Proof. split; vm_compute; reflexivity. Qed.

(** C10, amended.  For every grid (a non-empty list of rows of one length)
    and every [nsteps >= 2], [life] returns the grid of that shape with all
    cells dead, and so does [life_periodic] when the grid has at least one
    column: a cell read from the array is a [numpy.bool_], neither [is True]
    nor [is False] holds for it, and no later generation is written. *)
Theorem later_generations_all_dead
        (initial_state : list (list bool)) (nsteps : Z) (rows cols : nat) :
  shape2 initial_state = Ok (rows, cols) -> 2 <= nsteps ->
  life initial_state nsteps = Ok (Array2 (full2 rows cols))
  /\ ((1 <= cols)%nat ->
      life_periodic initial_state nsteps = Ok (Array2 (full2 rows cols))).
Proof.
  intros Hshape Hn. split.
  - by apply life_dead.
  - intros Hcols. by apply life_periodic_dead.
Qed.

Lemma later_generations_all_dead_witness :
  life glider5 7 = Ok (Array2 (full2 5 5))
  /\ life_periodic glider5 7 = Ok (Array2 (full2 5 5)).
Proof.
  destruct (later_generations_all_dead glider5 7 5 5) as [Hlife Hperiodic];
    [reflexivity | lia |].
  split; [exact Hlife | apply Hperiodic; lia].
Defined.

(** ** Further properties of the engines *)

(** The dictionary [thirty_rule] is Wolfram's rule 30: eight entries, keys
    pairwise different, every pattern found. *)
Theorem thirty_rule_is_rule_30 :
  length thirty_rule = 8%nat /\ NoDup (thirty_rule.*1) /\
  forall a b c : scalar,
    dict_get thirty_rule (a, b, c)
    = Some (Spec.wolfram 30 (truth a) (truth b) (truth c)).
Proof. apply thirty_rule_total. Qed.

(** On a lattice of at least two cells [rule_thirty] makes [nsteps - 1]
    transitions of Rule 30: interior cells from their three predecessors,
    cells 0 and L - 1 with positions -1 and L off (finite mode) or wrapped
    around (periodic mode). *)
Theorem rule_thirty_makes_transitions
        (initial_state : list bool) (nsteps : Z) (periodic : bool) :
  (2 <= length initial_state)%nat -> 1 <= nsteps ->
  rule_thirty initial_state nsteps periodic
  = Ok (Array1 (Spec.advance (Spec.rule30_step periodic) initial_state nsteps)).
Proof. apply rule_thirty_advance. Qed.

Lemma rule_thirty_makes_transitions_witness :
  rule_thirty [false; false; true; false; false] 3 false
  = Ok (Array1 (Spec.advance (Spec.rule30_step false)
                             [false; false; true; false; false] 3)).
Proof.
  apply (rule_thirty_makes_transitions [false; false; true; false; false] 3 false);
    [cbn; lia | lia].
Defined.

(** On a lattice of fewer than two cells a call of [rule_thirty] with
    [nsteps >= 2] fails with an index out of range, in both modes. *)
Theorem rule_thirty_needs_two_cells
        (initial_state : list bool) (nsteps : Z) (periodic : bool) :
  (length initial_state < 2)%nat -> 2 <= nsteps ->
  rule_thirty initial_state nsteps periodic = Raise IndexError.
Proof. apply rule_thirty_short. Qed.

Lemma rule_thirty_needs_two_cells_witness :
  rule_thirty [true] 4 false = Raise IndexError.
Proof. apply (rule_thirty_needs_two_cells [true] 4 false); [cbn; lia | lia]. Defined.

(** With [nsteps = 1], [rule_thirty] returns the initial state of any
    length and [life_periodic] the initial grid. *)
Theorem single_generation_is_initial_state
        (initial_state : list bool) (periodic : bool)
        (grid : list (list bool)) (rows cols : nat) :
  shape2 grid = Ok (rows, cols) ->
  rule_thirty initial_state 1 periodic = Ok (Array1 initial_state)
  /\ life_periodic grid 1 = Ok (Array2 grid).
Proof.
  intros Hshape. split.
  - apply rule_thirty_one.
  - by eapply life_periodic_one.
Qed.

Lemma single_generation_is_initial_state_witness :
  rule_thirty [true; true; false] 1 true = Ok (Array1 [true; true; false])
  /\ life_periodic glider5 1 = Ok (Array2 glider5).
Proof.
  apply (single_generation_is_initial_state [true; true; false] true glider5 5 5).
  reflexivity.
Defined.

(** With [nsteps = 1], [life] returns [None] on every grid. *)
Theorem life_single_generation_None
        (initial_state : list (list bool)) (rows cols : nat) :
  shape2 initial_state = Ok (rows, cols) ->
  life initial_state 1 = Ok None_.
Proof. intros Hshape. by eapply life_one. Qed.

Lemma life_single_generation_None_witness : life block4 1 = Ok None_.
Proof. apply (life_single_generation_None block4 4 4). reflexivity. Defined.

(** On a grid without columns a call of [life_periodic] with [nsteps >= 2]
    fails: [neighbors_list] is read unassigned. *)
Theorem life_periodic_needs_a_column
        (initial_state : list (list bool)) (nsteps : Z) (rows : nat) :
  shape2 initial_state = Ok (rows, O) -> 2 <= nsteps ->
  life_periodic initial_state nsteps = Raise UnboundLocalError.
Proof. intros Hshape Hn. by eapply life_periodic_no_column. Qed.

Lemma life_periodic_needs_a_column_witness :
  life_periodic [[]; []] 3 = Raise UnboundLocalError.
Proof.
  apply (life_periodic_needs_a_column [[]; []] 3 2); [reflexivity | lia].
Defined.

(** What [rule_thirty] does on every input: the loop never lacks fuel. *)
Theorem rule_thirty_outcome (initial_state : list bool) (nsteps : Z) (periodic : bool) :
  rule_thirty initial_state nsteps periodic
  = if bool_decide (nsteps < 0) then Raise ValueError
    else if bool_decide (nsteps = 0) then Raise IndexError
    else if bool_decide (nsteps = 1 \/ (2 <= length initial_state)%nat)
         then Ok (Array1 (Spec.advance (Spec.rule30_step periodic) initial_state nsteps))
         else Raise IndexError.
Proof.
  case_bool_decide as H0; [by rewrite rule_thirty_no_step, bool_decide_eq_true_2 by lia|].
  case_bool_decide as H1; [by rewrite rule_thirty_no_step, bool_decide_eq_false_2 by lia|].
  case_bool_decide as H2.
  - destruct (decide (nsteps = 1)) as [->|Hne]; [apply rule_thirty_one|].
    apply rule_thirty_advance; lia.
  - apply rule_thirty_short; lia.
Qed.

(** What [life] does on every list of rows. *)
Theorem life_outcome (initial_state : list (list bool)) (nsteps : Z) :
  life initial_state nsteps
  = match shape2 initial_state with
    | Ok (rows, cols) =>
        if bool_decide (nsteps < 0) then Raise ValueError
        else if bool_decide (nsteps = 0) then Raise IndexError
        else if bool_decide (nsteps = 1) then Ok None_
        else Ok (Array2 (full2 rows cols))
    | Raise e => Raise e
    | OutOfFuel => OutOfFuel
    end
  /\ shape2 initial_state <> OutOfFuel.
Proof.
  split; [|apply shape2_not_out_of_fuel].
  destruct (shape2 initial_state) as [[rows cols]|e|] eqn:Hshape;
    [ | by unfold life; rewrite Hshape .. ].
  case_bool_decide as H0;
    [by erewrite life_no_step, bool_decide_eq_true_2 by (done || lia)|].
  case_bool_decide as H1;
    [by erewrite life_no_step, bool_decide_eq_false_2 by (done || lia)|].
  case_bool_decide as H2.
  - by eapply life_one.
  - eapply life_dead; [done | lia].
Qed.

(** What [life_periodic] does on every list of rows. *)
Theorem life_periodic_outcome (initial_state : list (list bool)) (nsteps : Z) :
  life_periodic initial_state nsteps
  = match shape2 initial_state with
    | Ok (rows, cols) =>
        if bool_decide (nsteps < 0) then Raise ValueError
        else if bool_decide (nsteps = 0) then Raise IndexError
        else if bool_decide (nsteps = 1) then Ok (Array2 initial_state)
        else if bool_decide (cols = O) then Raise UnboundLocalError
        else Ok (Array2 (full2 rows cols))
    | Raise e => Raise e
    | OutOfFuel => OutOfFuel
    end
  /\ shape2 initial_state <> OutOfFuel.
Proof.
  split; [|apply shape2_not_out_of_fuel].
  destruct (shape2 initial_state) as [[rows cols]|e|] eqn:Hshape;
    [ | by unfold life_periodic, life_periodic_run; rewrite Hshape .. ].
  case_bool_decide as H0;
    [by erewrite life_periodic_no_step, bool_decide_eq_true_2 by (done || lia)|].
  case_bool_decide as H1;
    [by erewrite life_periodic_no_step, bool_decide_eq_false_2 by (done || lia)|].
  case_bool_decide as H2; [by eapply life_periodic_one|].
  case_bool_decide as H3.
  - eapply life_periodic_no_column; [done | done | lia].
  - eapply life_periodic_dead; [done | lia | lia].
Qed.

(** ** [rule_thirty]: history, shape, composition *)

Lemma history_snoc {A} (step : A -> A) (initial : A) (n : nat) :
  history step initial (S n) = history step initial n ++ [Nat.iter n step initial].
Proof. unfold history. by rewrite seq_S, fmap_app. Qed.

Lemma history_length {A} (step : A -> A) (initial : A) (n : nat) :
  length (history step initial n) = n.
Proof. unfold history. by rewrite length_fmap, length_seq. Qed.

Lemma history_lookup {A} (step : A -> A) (initial : A) (n k : nat) :
  (k < n)%nat -> history step initial n !! k = Some (Nat.iter k step initial).
Proof.
  intros Hk. unfold history. rewrite list_lookup_fmap, lookup_seq_lt by done. done.
Qed.

(** When the loop of [rule_thirty] is left, [current_state] holds every
    generation from the initial state on, row [t] being generation [t]. *)
Lemma rule_thirty_run_history (initial_state : list bool) (nsteps : Z) (periodic : bool) :
  (2 <= length initial_state)%nat -> 1 <= nsteps ->
  rule_thirty_run initial_state nsteps periodic
  = Ok (history (Spec.rule30_step periodic) initial_state (Z.to_nat nsteps)).
Proof.
  intros HL Hn. unfold rule_thirty_run.
  set (L := length initial_state) in *.
  set (n := Z.to_nat nsteps).
  set (step := Spec.rule30_step periodic).
  unfold dim. rewrite bool_decide_eq_true_2 by lia. run. fold n.
  rewrite setitem_in_range by (unfold full2; rewrite length_replicate; lia). run.
  set (P := fun (t : Z) (cs : list (list bool)) =>
              cs = history step initial_state (S (Z.to_nat t))
                   ++ replicate (n - S (Z.to_nat t)) (replicate L false)).
  edestruct (while_count (R := Empty_set) nsteps P) as (cs & -> & Hcs);
    [ | | reflexivity | | | ].
  - intros t cs Ht Hcs. cbn beta iota. red in Hcs.
    set (T := Z.to_nat t) in *.
    assert (cs !! T = Some (Nat.iter T step initial_state)) as Hcur.
    { rewrite Hcs, lookup_app_l by (rewrite history_length; lia).
      apply history_lookup. lia. }
    assert (cs !! S T = Some (replicate L false)) as Hnext.
    { rewrite Hcs, lookup_app_r by (rewrite history_length; lia).
      rewrite history_length. apply lookup_replicate_2. lia. }
    pose proof (rule30_iter_length periodic initial_state T) as Hpl. fold step L in Hpl.
    rewrite <- Hpl.
    rewrite (rule_thirty_body_step periodic _ (replicate L false) cs t)
      by (done || lia || by rewrite length_replicate).
    run. eexists. split; [reflexivity|]. red.
    replace (Z.to_nat (t + 1)) with (S T) by lia.
    rewrite (history_snoc _ _ (S T)), <- app_assoc. cbn [app].
    rewrite Hcs, insert_app_r_alt by (rewrite history_length; lia).
    rewrite history_length, Nat.sub_diag.
    replace (n - S T)%nat with (S (n - S (S T))) by lia. done.
  - lia.
  - lia.
  - red. change (Z.to_nat 0) with O. cbn [history seq fmap list_fmap Nat.iter nat_rect app].
    unfold full2. destruct n as [|n'] eqn:Hn'; [lia|].
    cbn. by rewrite Nat.sub_0_r.
  - run. red in Hcs. rewrite Hcs.
    replace (S (Z.to_nat (nsteps - 1))) with n by lia.
    rewrite Nat.sub_diag. cbn [replicate]. by rewrite app_nil_r.
Qed.

(** The all-off lattice is a fixed point of the transition, in both
    modes. *)
Lemma rule30_step_all_off (periodic : bool) (L : nat) :
  Spec.rule30_step periodic (replicate L false) = replicate L false.
Proof.
  assert (forall i, Spec.at_ periodic (replicate L false) i = false) as Hat.
  { intros i. unfold Spec.at_.
    assert (forall k, default false (replicate L false !! k) = false) as Hk.
    { intros k. destruct (replicate L false !! k) as [b|] eqn:Hb; [|done].
      by apply lookup_replicate_1 in Hb as [-> _]. }
    destruct periodic; [apply Hk|]. case_bool_decide; [apply Hk | done]. }
  apply list_eq. intros k. unfold Spec.rule30_step. rewrite list_lookup_imap.
  destruct (replicate L false !! k) as [b|] eqn:Hb; [|done].
  apply lookup_replicate_1 in Hb as [-> _]. cbn.
  unfold Spec.rule30_cell. by rewrite !Hat.
Qed.

Lemma rule30_iter_all_off (periodic : bool) (L k : nat) :
  Nat.iter k (Spec.rule30_step periodic) (replicate L false) = replicate L false.
Proof.
  induction k as [|k IH]; [done|].
  cbn [Nat.iter nat_rect]. fold (Nat.iter k (Spec.rule30_step periodic) (replicate L false)).
  by rewrite IH, rule30_step_all_off.
Qed.

(** Every call of [rule_thirty] that returns, returns the state after
    [nsteps - 1] transitions, and [nsteps >= 1]. *)
Lemma rule_thirty_returns (initial_state : list bool) (nsteps : Z) (periodic : bool) v :
  rule_thirty initial_state nsteps periodic = Ok v ->
  1 <= nsteps /\
  v = Array1 (Spec.advance (Spec.rule30_step periodic) initial_state nsteps).
Proof.
  intros Hv. destruct (decide (nsteps < 1)) as [Hlt|Hge].
  { by rewrite rule_thirty_no_step in Hv. }
  split; [lia|].
  destruct (decide (nsteps = 1)) as [->|Hne].
  { rewrite rule_thirty_one in Hv. by injection Hv as <-. }
  destruct (decide (2 <= length initial_state)%nat) as [HL|HL].
  - rewrite rule_thirty_advance in Hv by (done || lia). by injection Hv as <-.
  - by rewrite rule_thirty_short in Hv by lia.
Qed.

Lemma advance_advance {A} (step : A -> A) (initial : A) (a b : Z) :
  1 <= a -> 1 <= b ->
  Spec.advance step (Spec.advance step initial a) b = Spec.advance step initial (a + b - 1).
Proof.
  intros Ha Hb. unfold Spec.advance.
  replace (Z.to_nat (a + b - 1 - 1)) with (Z.to_nat (b - 1) + Z.to_nat (a - 1))%nat by lia.
  by rewrite Nat.iter_add.
Qed.

(** ** Rule 30 on a ring: rotations *)

Lemma at_periodic_mod (prev : list bool) (i : Z) :
  Spec.at_ true prev (i `mod` Z.of_nat (length prev)) = Spec.at_ true prev i.
Proof.
  unfold Spec.at_. destruct prev as [|x prev]; [reflexivity|].
  by rewrite Z.mod_mod by (cbn [length]; lia).
Qed.

Lemma at_periodic_rotate (k : nat) (prev : list bool) (i : Z) :
  Spec.at_ true (rotate k prev) i = Spec.at_ true prev (i + Z.of_nat k).
Proof.
  unfold Spec.at_. rewrite length_rotate.
  destruct prev as [|x prev]; [unfold rotate; by rewrite drop_nil, take_nil|].
  set (l := x :: prev). set (L := Z.of_nat (length l)).
  assert (0 < L) as HL by (unfold L, l; cbn [length]; lia).
  pose proof (Z.mod_pos_bound i L HL) as Hi.
  rewrite lookup_rotate_r by lia. f_equal. f_equal.
  unfold rotate_nat_add. fold L. f_equal.
  rewrite Z2Nat.id by lia.
  rewrite Z.add_mod_idemp_r by lia. f_equal. lia.
Qed.

Lemma rule30_cell_periodic_mod (prev : list bool) (i : Z) :
  Spec.rule30_cell true prev (i `mod` Z.of_nat (length prev)) = Spec.rule30_cell true prev i.
Proof.
  destruct prev as [|x prev]; [by rewrite Z.mod_0_r|].
  set (l := x :: prev). set (L := Z.of_nat (length l)).
  assert (0 < L) as HL by (unfold L, l; cbn [length]; lia).
  unfold Spec.rule30_cell.
  rewrite <- (at_periodic_mod l (i `mod` L - 1)), <- (at_periodic_mod l (i `mod` L)),
    <- (at_periodic_mod l (i `mod` L + 1)).
  rewrite <- (at_periodic_mod l (i - 1)), <- (at_periodic_mod l i),
    <- (at_periodic_mod l (i + 1)).
  fold L. unfold Z.sub.
  by rewrite !Z.add_mod_idemp_l, Z.mod_mod by lia.
Qed.

Lemma rule30_step_rotate (k : nat) (prev : list bool) :
  Spec.rule30_step true (rotate k prev) = rotate k (Spec.rule30_step true prev).
Proof.
  apply list_eq. intros j.
  destruct (decide (j < length prev)%nat) as [Hj|Hj].
  - rewrite lookup_rotate_r by (by rewrite rule30_step_length).
    rewrite rule30_step_length.
    unfold Spec.rule30_step. rewrite !list_lookup_imap.
    destruct (lookup_lt_is_Some_2 (rotate k prev) j) as [x ->];
      [by rewrite length_rotate|].
    destruct (lookup_lt_is_Some_2 prev (rotate_nat_add k j (length prev))) as [y ->];
      [apply rotate_nat_add_lt; lia|].
    cbn. f_equal. unfold Spec.rule30_cell at 1. rewrite !at_periodic_rotate.
    unfold rotate_nat_add. rewrite Z2Nat.id by (apply Z.mod_pos_bound; lia).
    rewrite rule30_cell_periodic_mod. unfold Spec.rule30_cell.
    f_equal; f_equal; lia.
  - rewrite !lookup_ge_None_2;
      [done | by rewrite length_rotate, rule30_step_length; lia
            | by rewrite rule30_step_length, length_rotate; lia].
Qed.

Lemma rule30_iter_rotate (k n : nat) (initial : list bool) :
  Nat.iter n (Spec.rule30_step true) (rotate k initial)
  = rotate k (Nat.iter n (Spec.rule30_step true) initial).
Proof.
  induction n as [|n IH]; [done|].
  cbn [Nat.iter nat_rect].
  fold (Nat.iter n (Spec.rule30_step true) (rotate k initial)).
  fold (Nat.iter n (Spec.rule30_step true) initial).
  by rewrite IH, rule30_step_rotate.
Qed.

(** ** The border assignments, cell by cell *)

Lemma copy_cells_lookup (cols : nat) (row : list bool) (j : nat) :
  length row = (cols + 2)%nat -> (j <= cols + 1)%nat ->
  copy_cell (S cols) 1 (copy_cell 0 cols row) !! j = row !! wrap cols j.
Proof.
  intros Hlen Hj. unfold copy_cell, wrap.
  destruct (lookup_lt_is_Some_2 row 1) as [x1 Hx1]; [lia|].
  destruct (lookup_lt_is_Some_2 row cols) as [xc Hxc]; [lia|].
  rewrite Hxc. cbn [default].
  rewrite (list_lookup_insert_ne _ O 1%nat) by lia. rewrite Hx1. cbn [default].
  destruct (Nat.eqb_spec j 0) as [->|H0].
  - destruct (decide (S cols = 0)%nat); [lia|].
    rewrite list_lookup_insert_ne by lia.
    by rewrite list_lookup_insert_eq by lia.
  - destruct (Nat.eqb_spec j (cols + 1)) as [->|H1].
    + replace (cols + 1)%nat with (S cols) by lia.
      by rewrite list_lookup_insert_eq by (rewrite length_insert; lia).
    + by rewrite !list_lookup_insert_ne by lia.
Qed.

Lemma refreshed_rows (rows : nat) (slab : list (list bool)) (i : nat) :
  length slab = (rows + 2)%nat -> (i <= rows + 1)%nat ->
  let s1 := <[O := default [] (slab !! rows)]> slab in
  <[S rows := default [] (s1 !! 1%nat)]> s1 !! i = slab !! wrap rows i.
Proof.
  intros Hlen Hi. cbn zeta. unfold wrap.
  destruct (lookup_lt_is_Some_2 slab 1) as [r1 Hr1]; [lia|].
  destruct (lookup_lt_is_Some_2 slab rows) as [rr Hrr]; [lia|].
  rewrite Hrr. cbn [default].
  rewrite (list_lookup_insert_ne _ O 1%nat) by lia. rewrite Hr1. cbn [default].
  destruct (Nat.eqb_spec i 0) as [->|H0].
  - rewrite list_lookup_insert_ne by lia.
    by rewrite list_lookup_insert_eq by lia.
  - destruct (Nat.eqb_spec i (rows + 1)) as [->|H1].
    + replace (rows + 1)%nat with (S rows) by lia.
      by rewrite list_lookup_insert_eq by (rewrite length_insert; lia).
    + by rewrite !list_lookup_insert_ne by lia.
Qed.

Lemma refreshed_shaped (rows cols : nat) (slab : list (list bool)) :
  shaped2 (rows + 2) (cols + 2) slab -> shaped2 (rows + 2) (cols + 2) (refreshed rows cols slab).
Proof.
  intros Hs. unfold refreshed.
  assert (forall r c (a : list (list bool)),
             shaped2 r c a ->
             shaped2 r c ((fun row => copy_cell (S cols) 1 (copy_cell 0 cols row)) <$> a)) as Hmap.
  { intros r c a [Hl Hf]. split; [by rewrite length_fmap|].
    apply Forall_fmap. rewrite Forall_forall in Hf. apply Forall_forall.
    intros row Hrow. cbn. rewrite !copy_cell_length. by apply Hf. }
  apply Hmap.
  destruct (shaped2_lookup _ _ _ rows Hs) as (rr & Hrr & Hlr); [lia|].
  rewrite Hrr. cbn [default].
  destruct (shaped2_lookup _ _ _ 1%nat Hs) as (r1 & Hr1 & Hl1); [lia|].
  rewrite (list_lookup_insert_ne _ O 1%nat) by lia. rewrite Hr1. cbn [default].
  by repeat apply shaped2_insert.
Qed.

(** After lines 186 to 189 every position of the generation, border and
    corners included, holds what the interior position it wraps to held. *)
Lemma refreshed_cell (rows cols : nat) (slab : list (list bool)) (i j : nat) :
  shaped2 (rows + 2) (cols + 2) slab -> (i <= rows + 1)%nat -> (j <= cols + 1)%nat ->
  cell2 (refreshed rows cols slab) i j = cell2 slab (wrap rows i) (wrap cols j).
Proof.
  intros Hs Hi Hj. unfold cell2, refreshed.
  rewrite list_lookup_fmap, refreshed_rows by (done || apply Hs).
  assert (wrap rows i < rows + 2)%nat as Hw.
  { unfold wrap. destruct (Nat.eqb_spec i 0); [lia|].
    destruct (Nat.eqb_spec i (rows + 1)); lia. }
  destruct (shaped2_lookup _ _ _ _ Hs Hw) as (row & -> & Hlen). cbn.
  by apply copy_cells_lookup.
Qed.

Lemma refresh_border_refreshed (rows cols : nat) (cs : list (list (list bool)))
      (t : Z) (slab : list (list bool)) :
  0 <= t -> cs !! Z.to_nat t = Some slab -> shaped2 (rows + 2) (cols + 2) slab ->
  refresh_border rows cols t cs = Ok (<[Z.to_nat t := refreshed rows cols slab]> cs).
Proof.
  intros Ht Hslab Hs. unfold refresh_border, refreshed.
  pose proof (lookup_lt_Some _ _ _ Hslab) as Hlt.
  destruct (shaped2_lookup _ _ _ rows Hs) as (rr & Hrr & Hlr); [lia|].
  destruct (shaped2_lookup _ _ _ 1%nat Hs) as (r1 & Hr1 & Hl1); [lia|].
  rewrite Hrr. cbn [default].
  rewrite (list_lookup_insert_ne _ O 1%nat) by lia. rewrite Hr1. cbn [default].
  rewrite (copy_row_Some _ t 0 (Z.of_nat rows) slab rr)
    by (done || (destruct Hs as [-> _]; lia) || lia || by rewrite Nat2Z.id). run.
  change (Z.to_nat 0) with O.
  set (s1 := <[O := rr]> slab).
  assert (shaped2 (rows + 2) (cols + 2) s1) as Hs1 by by apply shaped2_insert.
  rewrite (copy_row_Some _ t (Z.of_nat rows + 1) 1 s1 r1);
    [ | done | lia | destruct Hs1 as [-> _]; lia
      | by rewrite list_lookup_insert_eq by lia
      | change (Z.to_nat 1) with 1%nat; unfold s1; by rewrite list_lookup_insert_ne by lia ].
  run. rewrite list_insert_insert_eq.
  replace (Z.to_nat (Z.of_nat rows + 1)) with (S rows) by lia.
  set (s2 := <[S rows := r1]> s1).
  assert (shaped2 (rows + 2) (cols + 2) s2) as Hs2 by by apply shaped2_insert.
  rewrite (copy_col_Some _ t 0 (Z.of_nat cols) s2 (cols + 2));
    [ | done | lia | lia | by rewrite list_lookup_insert_eq by lia | apply Hs2 ].
  run. rewrite list_insert_insert_eq.
  set (s3 := copy_cell _ _ <$> s2).
  assert (shaped2 (rows + 2) (cols + 2) s3) as Hs3 by by apply copy_cell_shaped.
  rewrite (copy_col_Some _ t (Z.of_nat cols + 1) 1 s3 (cols + 2));
    [ | done | lia | lia | by rewrite list_lookup_insert_eq by lia | apply Hs3 ].
  unfold s3.
  rewrite list_insert_insert_eq, <- list_fmap_compose.
  do 2 f_equal. change (Z.to_nat 0) with O. change (Z.to_nat 1) with 1%nat.
  rewrite Nat2Z.id. replace (Z.to_nat (Z.of_nat cols + 1)) with (S cols) by lia.
  done.
Qed.

(** ** Generation 0 of the buffer, cell by cell *)

Lemma generation0_rows (initial_state : list (list bool)) (rows cols : nat) :
  shaped2 rows cols initial_state ->
  generation0 initial_state rows cols
  = [replicate (cols + 2) false]
      ++ ((fun row => false :: row ++ [false]) <$> initial_state)
      ++ [replicate (cols + 2) false].
Proof.
  intros [Hl Hf]. unfold generation0, assign_interior, full2.
  rewrite Hl, !drop_replicate, !take_replicate.
  replace (1 `min` (rows + 2))%nat with 1%nat by lia.
  replace (rows `min` (rows + 2 - 1))%nat with rows by lia.
  replace (rows + 2 - (1 + rows))%nat with 1%nat by lia.
  f_equal. f_equal.
  rewrite zip_with_replicate_r_eq by done.
  apply Forall_fmap_ext_1. rewrite Forall_forall in Hf. apply Forall_forall.
  intros row Hrow. apply Hf in Hrow. unfold flip, assign_slice.
  rewrite Hrow, drop_replicate, take_replicate.
  replace (1 `min` (cols + 2))%nat with 1%nat by lia.
  replace (cols + 2 - (1 + cols))%nat with 1%nat by lia.
  done.
Qed.

(** A position of generation 0 holds the cell of the initial grid it
    stands for, and a border position holds [False]. *)
Lemma generation0_cell (initial_state : list (list bool)) (rows cols i j : nat) :
  shaped2 rows cols initial_state -> (i <= rows + 1)%nat -> (j <= cols + 1)%nat ->
  cell2 (generation0 initial_state rows cols) i j
  = Some (Spec.cell false initial_state (Z.of_nat i - 1) (Z.of_nat j - 1)).
Proof.
  intros Hs Hi Hj. rewrite generation0_rows by done. destruct Hs as [Hl Hf].
  unfold cell2, Spec.cell. cbn [app].
  destruct i as [|i].
  { cbn. by rewrite lookup_replicate_2 by lia. }
  rewrite lookup_cons_ne_0 by lia. cbn [pred].
  replace (Z.of_nat (S i) - 1) with (Z.of_nat i) by lia.
  destruct (decide (i < rows)%nat) as [Hir|Hir].
  - destruct (lookup_lt_is_Some_2 initial_state i) as [row Hrow]; [lia|].
    pose proof (Forall_lookup_1 _ _ _ _ Hf Hrow) as Hlen. cbn beta in Hlen.
    rewrite lookup_app_l by (rewrite length_fmap; lia).
    rewrite list_lookup_fmap, Hrow. cbn.
    rewrite Nat2Z.id, Hrow. cbn [default].
    destruct j as [|j].
    + by rewrite bool_decide_eq_false_2 by lia.
    + rewrite lookup_cons_ne_0 by lia. cbn [pred].
      rewrite bool_decide_eq_true_2 by lia.
      replace (Z.to_nat (Z.of_nat (S j) - 1)) with j by lia.
      destruct (decide (j < cols)%nat) as [Hjc|Hjc].
      * rewrite lookup_app_l by lia. unfold id.
        by destruct (lookup_lt_is_Some_2 row j) as [b ->]; [lia|].
      * assert (j = cols) as -> by lia. unfold id.
        rewrite (lookup_ge_None_2 row) by lia. cbn [default].
        rewrite lookup_app_r by lia. by rewrite Hlen, Nat.sub_diag.
  - assert (i = rows) as -> by lia.
    rewrite lookup_app_r by (rewrite length_fmap; lia).
    rewrite length_fmap, Hl, Nat.sub_diag. cbn.
    rewrite lookup_replicate_2 by lia. f_equal.
    case_bool_decide; [|done].
    by rewrite Nat2Z.id, (lookup_ge_None_2 initial_state) by lia.
Qed.

(** ** The neighbour count *)

Lemma read3_cell2 (cs : list (list (list bool))) (t i j : Z) slab b :
  0 <= t -> 0 <= i -> 0 <= j ->
  cs !! Z.to_nat t = Some slab -> cell2 slab (Z.to_nat i) (Z.to_nat j) = Some b ->
  read3 cs t i j = Ok (NpBool b).
Proof.
  intros Ht Hi Hj Hslab Hb. unfold cell2 in Hb.
  destruct (slab !! Z.to_nat i) as [row|] eqn:Hrow; [|done]. cbn in Hb.
  by eapply read3_Some.
Qed.

(** When the positions around [(i, j)] hold the values [f] gives, the list
    built by lines 104 to 113 holds these eight values, in the order of the
    source. *)
Lemma neighbors_of (cs : list (list (list bool))) (t i j : Z) slab (f : Z -> Z -> bool) :
  0 <= t -> 1 <= i -> 1 <= j -> cs !! Z.to_nat t = Some slab ->
  (forall a b, i - 1 <= a <= i + 1 -> j - 1 <= b <= j + 1 ->
               cell2 slab (Z.to_nat a) (Z.to_nat b) = Some (f a b)) ->
  neighbors cs t i j
  = Ok (NpBool <$> [ f (i - 1) (j - 1); f (i - 1) j; f (i - 1) (j + 1);
                     f i (j - 1); f i (j + 1);
                     f (i + 1) (j - 1); f (i + 1) j; f (i + 1) (j + 1) ]).
Proof.
  intros Ht Hi Hj Hslab Hf. unfold neighbors.
  rewrite (read3_cell2 cs t (i - 1) (j - 1) slab (f (i - 1) (j - 1)))
    by (lia || done || (apply Hf; lia)). run.
  rewrite (read3_cell2 cs t (i - 1) j slab (f (i - 1) j))
    by (lia || done || (apply Hf; lia)). run.
  rewrite (read3_cell2 cs t (i - 1) (j + 1) slab (f (i - 1) (j + 1)))
    by (lia || done || (apply Hf; lia)). run.
  rewrite (read3_cell2 cs t i (j - 1) slab (f i (j - 1)))
    by (lia || done || (apply Hf; lia)). run.
  rewrite (read3_cell2 cs t i (j + 1) slab (f i (j + 1)))
    by (lia || done || (apply Hf; lia)). run.
  rewrite (read3_cell2 cs t (i + 1) (j - 1) slab (f (i + 1) (j - 1)))
    by (lia || done || (apply Hf; lia)). run.
  rewrite (read3_cell2 cs t (i + 1) j slab (f (i + 1) j))
    by (lia || done || (apply Hf; lia)). run.
  rewrite (read3_cell2 cs t (i + 1) (j + 1) slab (f (i + 1) (j + 1)))
    by (lia || done || (apply Hf; lia)). run.
  done.
Qed.

(** [count(True)] on values read from a boolean array counts the true
    ones. *)
Lemma count_numpy_booleans (bs : list bool) :
  count (NpBool <$> bs) (PyBool true) = length (List.filter (fun b : bool => b) bs).
Proof.
  induction bs as [|b bs IH]; [done|].
  cbn [fmap list_fmap count List.filter]. fold (NpBool <$> bs). rewrite IH.
  by destruct b.
Qed.

(** In [life], the count made for an interior cell of generation 0 is the
    number of live cells among its eight neighbours in the initial grid,
    the cells outside the grid being dead. *)
Lemma life_neighbour_count (initial_state : list (list bool)) (nsteps : Z)
      (rows cols : nat) (i j : Z) :
  shape2 initial_state = Ok (rows, cols) -> 1 <= nsteps ->
  1 <= i <= Z.of_nat rows -> 1 <= j <= Z.of_nat cols ->
  exists cs nl,
    padded initial_state nsteps rows cols = Ok cs
    /\ neighbors cs 0 i j = Ok nl
    /\ count nl (PyBool true) = Spec.alive_neighbours false initial_state (i - 1) (j - 1).
Proof.
  intros Hshape Hn Hi Hj.
  destruct (shape2_shaped _ _ _ Hshape) as [Hs _].
  rewrite (padded_ok _ nsteps rows cols) by done.
  eexists. eexists. split; [reflexivity|].
  rewrite (neighbors_of _ 0 i j (generation0 initial_state rows cols)
             (fun a b => Spec.cell false initial_state (a - 1) (b - 1)))
    by (lia || done ||
        (intros a b Ha Hb; rewrite generation0_cell by (done || lia);
         by rewrite !Z2Nat.id by lia)).
  split; [reflexivity|].
  rewrite count_numpy_booleans. unfold Spec.alive_neighbours.
  do 2 f_equal.
  replace (j + 1 - 1) with (j - 1 + 1) by lia.
  by replace (i + 1 - 1) with (i - 1 + 1) by lia.
Qed.

Lemma interior_cell (rows cols : nat) (slab : list (list bool)) (a b : nat) :
  (a < rows)%nat -> (b < cols)%nat ->
  cell2 (interior rows cols slab) a b = cell2 slab (S a) (S b).
Proof.
  intros Ha Hb. unfold cell2, interior.
  rewrite list_lookup_fmap, lookup_take_lt, lookup_drop by done.
  change (1 + a)%nat with (S a).
  destruct (slab !! S a) as [row|]; [|done]. cbn.
  by rewrite lookup_take_lt, lookup_drop by done.
Qed.

Lemma interior_shaped (rows cols : nat) (slab : list (list bool)) :
  shaped2 (rows + 2) (cols + 2) slab -> shaped2 rows cols (interior rows cols slab).
Proof.
  intros [Hl Hf]. unfold interior. split.
  - rewrite length_fmap, length_take, length_drop. lia.
  - apply Forall_fmap, Forall_take, Forall_drop.
    rewrite Forall_forall in Hf. apply Forall_forall. intros row Hrow.
    apply Hf in Hrow. cbn. rewrite length_take, length_drop. lia.
Qed.

Lemma cell_periodic (g : list (list bool)) (rows cols : nat) (x y : Z) :
  shaped2 rows cols g -> (1 <= rows)%nat -> (1 <= cols)%nat ->
  Spec.cell true g x y
  = default false (cell2 g (Z.to_nat (x `mod` Z.of_nat rows))
                         (Z.to_nat (y `mod` Z.of_nat cols))).
Proof.
  intros Hs Hr Hc. unfold Spec.cell, cell2. destruct (Hs) as [Hl _]. rewrite Hl.
  pose proof (Z.mod_pos_bound x (Z.of_nat rows)) as Hx.
  destruct (shaped2_lookup _ _ _ (Z.to_nat (x `mod` Z.of_nat rows)) Hs)
    as (row & -> & Hlen); [lia|].
  cbn. by rewrite Hlen.
Qed.

Lemma wrap_mod (n i : nat) :
  (1 <= n)%nat -> (i <= n + 1)%nat ->
  (1 <= wrap n i <= n)%nat
  /\ Z.to_nat ((Z.of_nat i - 1) `mod` Z.of_nat n) = (wrap n i - 1)%nat.
Proof.
  intros Hn Hi. unfold wrap.
  destruct (Nat.eqb_spec i 0) as [->|H0].
  - split; [lia|].
    replace ((Z.of_nat 0 - 1) `mod` Z.of_nat n) with (Z.of_nat n - 1); [lia|].
    apply Z.mod_unique with (-1); lia.
  - destruct (Nat.eqb_spec i (n + 1)) as [->|H1].
    + split; [lia|].
      replace (Z.of_nat (n + 1) - 1) with (Z.of_nat n) by lia.
      by rewrite Z.mod_same by lia.
    + split; [lia|]. rewrite Z.mod_small by lia. lia.
Qed.

(** A position of a generation whose border lines 186 to 189 have
    assigned holds the cell of the interior it stands for on the torus. *)
Lemma refreshed_cell_periodic (rows cols : nat) (slab : list (list bool)) (i j : nat) :
  shaped2 (rows + 2) (cols + 2) slab ->
  (1 <= rows)%nat -> (1 <= cols)%nat -> (i <= rows + 1)%nat -> (j <= cols + 1)%nat ->
  cell2 (refreshed rows cols slab) i j
  = Some (Spec.cell true (interior rows cols slab) (Z.of_nat i - 1) (Z.of_nat j - 1)).
Proof.
  intros Hs Hr Hc Hi Hj.
  destruct (wrap_mod rows i Hr Hi) as [Hwi Hmi].
  destruct (wrap_mod cols j Hc Hj) as [Hwj Hmj].
  rewrite refreshed_cell by done.
  rewrite (cell_periodic _ rows cols) by (done || by apply interior_shaped).
  rewrite Hmi, Hmj, interior_cell by lia.
  replace (S (wrap rows i - 1)) with (wrap rows i) by lia.
  replace (S (wrap cols j - 1)) with (wrap cols j) by lia.
  unfold cell2.
  destruct (shaped2_lookup _ _ _ (wrap rows i) Hs) as (row & -> & Hlen); [lia|].
  cbn. by destruct (lookup_lt_is_Some_2 row (wrap cols j)) as [b ->]; [lia|].
Qed.

(** After lines 186 to 189, the count made for an interior cell of that
    generation is the number of live cells among its eight neighbours on
    the torus. *)
Lemma periodic_neighbour_count (rows cols : nat) (cs : list (list (list bool)))
      (t : Z) (slab : list (list bool)) (i j : Z) :
  0 <= t -> cs !! Z.to_nat t = Some slab -> shaped2 (rows + 2) (cols + 2) slab ->
  1 <= i <= Z.of_nat rows -> 1 <= j <= Z.of_nat cols ->
  exists cs' nl,
    refresh_border rows cols t cs = Ok cs'
    /\ neighbors cs' t i j = Ok nl
    /\ count nl (PyBool true)
       = Spec.alive_neighbours true (interior rows cols slab) (i - 1) (j - 1).
Proof.
  intros Ht Hslab Hs Hi Hj.
  rewrite (refresh_border_refreshed rows cols cs t slab) by done.
  eexists. eexists. split; [reflexivity|].
  pose proof (lookup_lt_Some _ _ _ Hslab) as Hlt.
  rewrite (neighbors_of _ t i j (refreshed rows cols slab)
             (fun a b => Spec.cell true (interior rows cols slab) (a - 1) (b - 1)))
    by (lia || (by rewrite list_lookup_insert_eq) ||
        (intros a b Ha Hb; rewrite refreshed_cell_periodic by (done || lia);
         by rewrite !Z2Nat.id by lia)).
  split; [reflexivity|].
  rewrite count_numpy_booleans. unfold Spec.alive_neighbours.
  do 2 f_equal.
  replace (j + 1 - 1) with (j - 1 + 1) by lia.
  by replace (i + 1 - 1) with (i - 1 + 1) by lia.
Qed.

(** ** The border of generation 0 of [life_periodic] *)

Lemma life_periodic_init_border0 (initial_state : list (list bool)) (nsteps : Z)
      (rows cols : nat) :
  shaped2 rows cols initial_state -> 1 <= nsteps ->
  life_periodic_init initial_state nsteps rows cols
  = Ok (border0 rows cols (generation0 initial_state rows cols)
          :: replicate (Z.to_nat nsteps - 1) (full2 (rows + 2) (cols + 2))).
Proof.
  intros Hshape Hn. unfold life_periodic_init, border0.
  rewrite (padded_ok _ nsteps rows cols) by done. run.
  set (rest := replicate (Z.to_nat nsteps - 1) _).
  pose proof (generation0_shaped initial_state rows cols Hshape) as Hs.
  set (gp := generation0 initial_state rows cols) in *.
  destruct (shaped2_lookup _ _ _ rows Hs) as (rowR & HrowR & HlenR); [lia|].
  destruct (lookup_lt_is_Some_2 rowR 1) as [v Hv]; [lia|].
  destruct (shaped2_lookup _ _ _ O Hs) as (row0 & Hrow0 & Hlen0); [lia|].
  destruct (shaped2_lookup _ _ _ 1%nat Hs) as (row1 & Hrow1 & Hlen1); [lia|].
  unfold cell2. rewrite HrowR, Hrow0. cbn [mbind option_bind]. rewrite Hv. cbn [default].
  unfold id.
  rewrite (read3_Some _ 0 (Z.of_nat rows) 1 gp rowR v)
    by (done || lia || by rewrite ?Nat2Z.id). run. cbn [truth].
  rewrite (write3_Some _ 0 0 1 gp row0) by (done || lia). run.
  change (<[Z.to_nat 0 := ?x]> (gp :: rest)) with (x :: rest).
  change (Z.to_nat 0) with O. change (Z.to_nat 1) with 1%nat.
  set (s1 := <[O := <[1%nat := v]> row0]> gp).
  assert (shaped2 (rows + 2) (cols + 2) s1) as Hs1
    by (apply shaped2_insert; [done | by rewrite length_insert]).
  assert (s1 !! 1%nat = Some row1) as Hs11
    by (unfold s1; by rewrite list_lookup_insert_ne by lia).
  rewrite Hs11. cbn [default]. unfold id.
  rewrite (copy_row_Some _ 0 (Z.of_nat rows + 1) 1 s1 row1)
    by (done || (destruct Hs1 as [-> _]; lia) || lia). run.
  change (<[Z.to_nat 0 := ?x]> (s1 :: rest)) with (x :: rest).
  replace (Z.to_nat (Z.of_nat rows + 1)) with (S rows) by lia.
  set (s2 := <[S rows := row1]> s1).
  assert (shaped2 (rows + 2) (cols + 2) s2) as Hs2 by by apply shaped2_insert.
  rewrite (copy_col_Some _ 0 0 (Z.of_nat cols) s2 (cols + 2))
    by (done || lia || apply Hs2). run.
  change (<[Z.to_nat 0 := ?x]> (s2 :: rest)) with (x :: rest).
  set (s3 := copy_cell _ _ <$> s2).
  assert (shaped2 (rows + 2) (cols + 2) s3) as Hs3 by by apply copy_cell_shaped.
  rewrite (copy_col_Some _ 0 (Z.of_nat cols + 1) 1 s3 (cols + 2))
    by (done || lia || apply Hs3).
  change (<[Z.to_nat 0 := ?x]> (s3 :: rest)) with (x :: rest).
  unfold s3. rewrite <- list_fmap_compose.
  do 3 f_equal. change (Z.to_nat 0) with O. change (Z.to_nat 1) with 1%nat.
  rewrite Nat2Z.id. by replace (Z.to_nat (Z.of_nat cols + 1)) with (S cols) by lia.
Qed.

(** What lines 157 to 160 give, row by row: row 0 of the buffer with the
    one assigned cell, the bottom border row a copy of row 1, every other
    row as it was, each with its two border cells assigned. *)
Lemma border0_cell (rows cols : nat) (slab : list (list bool)) (i j : nat) :
  shaped2 (rows + 2) (cols + 2) slab -> (1 <= rows)%nat ->
  (i <= rows + 1)%nat -> (j <= cols + 1)%nat ->
  cell2 (border0 rows cols slab) i j
  = if Nat.eqb i 0
    then (if Nat.eqb (wrap cols j) 1 then cell2 slab rows 1
          else cell2 slab 0 (wrap cols j))
    else cell2 slab (if Nat.eqb i (rows + 1) then 1%nat else i) (wrap cols j).
Proof.
  intros Hs Hr Hi Hj. unfold border0.
  destruct (shaped2_lookup _ _ _ rows Hs) as (rowR & HrowR & HlenR); [lia|].
  destruct (lookup_lt_is_Some_2 rowR 1) as [v Hv]; [lia|].
  destruct (shaped2_lookup _ _ _ O Hs) as (row0 & Hrow0 & Hlen0); [lia|].
  destruct (shaped2_lookup _ _ _ 1%nat Hs) as (row1 & Hrow1 & Hlen1); [lia|].
  assert (cell2 slab rows 1 = Some v) as Hcv by (unfold cell2; by rewrite HrowR).
  rewrite Hcv, Hrow0. cbn [default]. unfold id.
  rewrite (list_lookup_insert_ne _ O 1%nat) by lia. rewrite Hrow1. cbn [default]. unfold id.
  assert (wrap cols j < cols + 2)%nat as Hw.
  { unfold wrap. destruct (Nat.eqb_spec j 0); [lia|].
    destruct (Nat.eqb_spec j (cols + 1)); lia. }
  unfold cell2 at 1. rewrite list_lookup_fmap.
  destruct (Nat.eqb_spec i 0) as [->|H0].
  - rewrite list_lookup_insert_ne by lia.
    rewrite list_lookup_insert_eq by (destruct Hs as [-> _]; lia). cbn.
    rewrite copy_cells_lookup by (rewrite ?length_insert; done).
    destruct (Nat.eqb_spec (wrap cols j) 1) as [->|Hne].
    + by rewrite list_lookup_insert_eq by lia.
    + rewrite list_lookup_insert_ne by done. unfold cell2. by rewrite Hrow0.
  - destruct (Nat.eqb_spec i (rows + 1)) as [->|H1].
    + replace (rows + 1)%nat with (S rows) by lia.
      rewrite list_lookup_insert_eq by (rewrite length_insert; destruct Hs as [-> _]; lia).
      cbn. rewrite copy_cells_lookup by done. unfold cell2. by rewrite Hrow1.
    + rewrite !list_lookup_insert_ne by lia. unfold cell2.
      destruct (shaped2_lookup _ _ _ i Hs) as (row & -> & Hlen); [lia|]. cbn.
      by rewrite copy_cells_lookup.
Qed.

(** ** The loop of [life_periodic] writes nothing *)

Lemma life_periodic_run_fixed (initial_state : list (list bool)) (nsteps : Z)
      (rows cols : nat) :
  shape2 initial_state = Ok (rows, cols) -> (1 <= cols)%nat -> 1 <= nsteps ->
  life_periodic_run initial_state nsteps
  = Ok (rows, cols,
        border0 rows cols (generation0 initial_state rows cols)
          :: replicate (Z.to_nat nsteps - 1) (full2 (rows + 2) (cols + 2))).
Proof.
  intros Hshape Hcols Hn. unfold life_periodic_run. rewrite Hshape. run.
  destruct (shape2_shaped _ _ _ Hshape) as [Hs _].
  rewrite life_periodic_init_border0 by done. run.
  destruct (life_periodic_init_ok rows cols initial_state nsteps Hs Hn)
    as (g0 & Hg0 & Hg0s & _).
  rewrite life_periodic_init_border0 in Hg0 by done. injection Hg0 as Hg0.
  rewrite Hg0.
  set (n := Z.to_nat nsteps).
  set (cs := g0 :: replicate (n - 1) (full2 (rows + 2) (cols + 2))).
  assert (shaped3 n (rows + 2) (cols + 2) cs) as Hcs.
  { split.
    - unfold cs. cbn [length]. rewrite length_replicate. lia.
    - constructor; [done|]. apply Forall_replicate, shaped2_full. }
  edestruct (while_count (R := Empty_set) nsteps (fun _ s => current_state_of s = cs))
    as (s & -> & Hfinal); [ | | reflexivity | | | ].
  - intros t s Ht Hs0. cbn beta iota. unfold life_periodic_body.
    destruct (life_periodic_rows_ok n rows cols cs t Hcs ltac:(lia) Hcols s Hs0)
      as (s1 & -> & Hs1). run.
    rewrite Hs1, refresh_border_full.
    + run. eexists. split; [reflexivity | done].
    + lia.
    + unfold cs. replace (Z.to_nat (t + 1)) with (S (Z.to_nat t)) by lia.
      cbn [lookup list_lookup]. apply lookup_replicate_2. lia.
  - lia.
  - lia.
  - done.
  - run. by rewrite Hfinal.
Qed.

Lemma wrap_values (n : nat) :
  wrap n 0 = n /\ wrap n n = n /\ wrap n (n + 1) = 1%nat /\ wrap n 1 = 1%nat.
Proof.
  unfold wrap. split; [done|]. split; [|split].
  - destruct (Nat.eqb_spec n 0); [done|]. destruct (Nat.eqb_spec n (n + 1)); [lia | done].
  - destruct (Nat.eqb_spec (n + 1) 0); [lia|]. by rewrite Nat.eqb_refl.
  - destruct (Nat.eqb 1 (n + 1)); reflexivity.
Qed.

(** ** Further properties: [rule_thirty] *)

(** When the loop of [rule_thirty] is left on a lattice of at least two
    cells, the array [current_state] holds the whole history: row [t] is
    the lattice after [t] transitions, for [t] from 0 to [nsteps - 1]. *)
Theorem rule_thirty_keeps_history
        (initial_state : list bool) (nsteps : Z) (periodic : bool) :
  (2 <= length initial_state)%nat -> 1 <= nsteps ->
  rule_thirty_run initial_state nsteps periodic
  = Ok (history (Spec.rule30_step periodic) initial_state (Z.to_nat nsteps)).
Proof. apply rule_thirty_run_history. Qed.

Lemma rule_thirty_keeps_history_witness :
  rule_thirty_run [false; true; false] 3 false
  = Ok (history (Spec.rule30_step false) [false; true; false] (Z.to_nat 3)).
Proof.
  apply (rule_thirty_keeps_history [false; true; false] 3 false); [cbn; lia | lia].
Defined.

(** A call of [rule_thirty] that returns, returns an array of the length of
    the initial state. *)
Theorem rule_thirty_result_has_input_length
        (initial_state : list bool) (nsteps : Z) (periodic : bool) (v : value) :
  rule_thirty initial_state nsteps periodic = Ok v ->
  exists out, v = Array1 out /\ length out = length initial_state.
Proof.
  intros Hv. apply rule_thirty_returns in Hv as [_ ->].
  eexists. split; [reflexivity|]. apply rule30_iter_length.
Qed.

Lemma rule_thirty_result_has_input_length_witness :
  exists out, Array1 [true; true; true] = Array1 out
              /\ length out = length [false; true; false].
Proof.
  apply (rule_thirty_result_has_input_length [false; true; false] 2 false).
  reflexivity.
Defined.

(** A run can be resumed: running [a] generations and then [b] generations
    from the result is running [a + b - 1] generations from the start. *)
Theorem rule_thirty_resumes
        (initial_state mid out : list bool) (a b : Z) (periodic : bool) :
  rule_thirty initial_state a periodic = Ok (Array1 mid) ->
  rule_thirty mid b periodic = Ok (Array1 out) ->
  rule_thirty initial_state (a + b - 1) periodic = Ok (Array1 out).
Proof.
  intros Ha Hb.
  pose proof Ha as Ha'. pose proof Hb as Hb'.
  apply rule_thirty_returns in Ha' as [Ha1 [= ->]].
  apply rule_thirty_returns in Hb' as [Hb1 [= ->]].
  rewrite advance_advance by done.
  destruct (decide (2 <= length initial_state)%nat) as [HL|HL].
  { apply rule_thirty_advance; [done | lia]. }
  destruct (decide (a = 1)) as [->|Hane].
  2:{ by rewrite rule_thirty_short in Ha by lia. }
  destruct (decide (b = 1)) as [->|Hbne].
  2:{ rewrite rule_thirty_short in Hb; [done | | lia].
      unfold Spec.advance. rewrite rule30_iter_length. lia. }
  apply rule_thirty_one.
Qed.

Lemma rule_thirty_resumes_witness :
  rule_thirty [false; false; true; false; false] (2 + 3 - 1) false
  = Ok (Array1 [true; false; true; true; true]).
Proof.
  apply (rule_thirty_resumes [false; false; true; false; false]
           [false; true; true; true; false] [true; false; true; true; true] 2 3 false);
    reflexivity.
Defined.

(** The lattice with every cell off stays as it is, in both modes. *)
Theorem rule_thirty_all_off_stays_off (L : nat) (nsteps : Z) (periodic : bool) :
  (2 <= L)%nat -> 1 <= nsteps ->
  rule_thirty (replicate L false) nsteps periodic = Ok (Array1 (replicate L false)).
Proof.
  intros HL Hn. rewrite rule_thirty_advance by (rewrite ?length_replicate; done).
  unfold Spec.advance. by rewrite rule30_iter_all_off.
Qed.

Lemma rule_thirty_all_off_stays_off_witness :
  rule_thirty (replicate 4 false) 6 true = Ok (Array1 (replicate 4 false)).
Proof. apply (rule_thirty_all_off_stays_off 4 6 true); lia. Defined.

(** In periodic mode the automaton has no origin: rotating the initial
    state by [k] cells rotates the result by [k] cells. *)
Theorem rule_thirty_periodic_commutes_with_rotation
        (initial_state out : list bool) (nsteps : Z) (k : nat) :
  rule_thirty initial_state nsteps true = Ok (Array1 out) ->
  rule_thirty (rotate k initial_state) nsteps true = Ok (Array1 (rotate k out)).
Proof.
  intros Hout. pose proof Hout as Hout'.
  apply rule_thirty_returns in Hout' as [Hn [= ->]].
  unfold Spec.advance. rewrite <- rule30_iter_rotate.
  destruct (decide (nsteps = 1)) as [->|Hne]; [apply rule_thirty_one|].
  destruct (decide (2 <= length initial_state)%nat) as [HL|HL].
  - apply rule_thirty_advance; [by rewrite length_rotate | done].
  - by rewrite rule_thirty_short in Hout by lia.
Qed.

Lemma rule_thirty_periodic_commutes_with_rotation_witness :
  rule_thirty (rotate 2 [false; false; true; false; false]) 3 true
  = Ok (Array1 (rotate 2 [true; true; false; false; true])).
Proof.
  apply (rule_thirty_periodic_commutes_with_rotation
           [false; false; true; false; false] [true; true; false; false; true] 3 2).
  reflexivity.
Defined.

(** ** Further properties: the Game of Life engines *)

(** A call of [life] or [life_periodic] that returns an array, returns one
    of the shape of the initial grid. *)
Theorem life_result_has_input_shape
        (initial_state out : list (list bool)) (nsteps : Z) (rows cols : nat) :
  shape2 initial_state = Ok (rows, cols) ->
  life initial_state nsteps = Ok (Array2 out)
  \/ life_periodic initial_state nsteps = Ok (Array2 out) ->
  shaped2 rows cols out.
Proof.
  intros Hshape Hout.
  destruct (shape2_shaped _ _ _ Hshape) as [Hs _].
  destruct (decide (nsteps < 1)) as [Hlt|Hge].
  { erewrite life_no_step, life_periodic_no_step in Hout by done.
    by destruct Hout. }
  destruct (decide (nsteps = 1)) as [->|Hne].
  { erewrite life_one, life_periodic_one in Hout by done.
    destruct Hout as [[=]|[= <-]]. done. }
  erewrite life_dead in Hout by (done || lia).
  destruct Hout as [[= <-]|Hout]; [apply shaped2_full|].
  destruct (decide (cols = O)) as [->|Hcols].
  { by erewrite life_periodic_no_column in Hout by (done || lia). }
  erewrite life_periodic_dead in Hout by (done || lia).
  injection Hout as <-. apply shaped2_full.
Qed.

Lemma life_result_has_input_shape_witness : shaped2 5 5 glider5.
Proof.
  apply (life_result_has_input_shape glider5 glider5 1 5 5); [reflexivity|].
  right. reflexivity.
Defined.

(** In [life], the count made for an interior cell of generation 0 is the
    number of live cells among the eight neighbours of the cell in the
    initial grid, cells outside the grid being dead. *)
Theorem life_counts_neighbours_with_dead_border
        (initial_state : list (list bool)) (nsteps : Z) (rows cols : nat) (i j : Z) :
  shape2 initial_state = Ok (rows, cols) -> 1 <= nsteps ->
  1 <= i <= Z.of_nat rows -> 1 <= j <= Z.of_nat cols ->
  exists cs nl,
    padded initial_state nsteps rows cols = Ok cs
    /\ neighbors cs 0 i j = Ok nl
    /\ count nl (PyBool true) = Spec.alive_neighbours false initial_state (i - 1) (j - 1).
Proof. apply life_neighbour_count. Qed.

Lemma life_counts_neighbours_with_dead_border_witness :
  exists cs nl,
    padded glider5 2 5 5 = Ok cs
    /\ neighbors cs 0 2 2 = Ok nl
    /\ count nl (PyBool true) = Spec.alive_neighbours false glider5 (2 - 1) (2 - 1).
Proof.
  apply (life_counts_neighbours_with_dead_border glider5 2 5 5 2 2);
    [reflexivity | lia | lia | lia].
Defined.

(** Lines 186 to 189 make one generation of the buffer periodic: the other
    generations and the interior are untouched, and every border position,
    the four corners included, holds the value of the interior position it
    wraps to. *)
Theorem refresh_border_wraps
        (rows cols : nat) (cs : list (list (list bool))) (t : Z)
        (slab : list (list bool)) :
  0 <= t -> cs !! Z.to_nat t = Some slab -> shaped2 (rows + 2) (cols + 2) slab ->
  exists slab',
    refresh_border rows cols t cs = Ok (<[Z.to_nat t := slab']> cs)
    /\ shaped2 (rows + 2) (cols + 2) slab'
    /\ forall i j : nat, (i <= rows + 1)%nat -> (j <= cols + 1)%nat ->
         cell2 slab' i j = cell2 slab (wrap rows i) (wrap cols j).
Proof.
  intros Ht Hslab Hs. exists (refreshed rows cols slab).
  split; [by apply refresh_border_refreshed|].
  split; [by apply refreshed_shaped|].
  intros i j Hi Hj. by apply refreshed_cell.
Qed.

Lemma refresh_border_wraps_witness :
  exists slab',
    refresh_border 2 2 0 [generation0 corner2 2 2]
    = Ok (<[Z.to_nat 0 := slab']> [generation0 corner2 2 2])
    /\ shaped2 (2 + 2) (2 + 2) slab'
    /\ forall i j : nat, (i <= 2 + 1)%nat -> (j <= 2 + 1)%nat ->
         cell2 slab' i j = cell2 (generation0 corner2 2 2) (wrap 2 i) (wrap 2 j).
Proof.
  apply (refresh_border_wraps 2 2 [generation0 corner2 2 2] 0 (generation0 corner2 2 2));
    [lia | reflexivity | split; [reflexivity | repeat constructor]].
Defined.

(** After lines 186 to 189, the count made for an interior cell of that
    generation is the number of live cells among the eight neighbours of
    the cell on the torus. *)
Theorem refreshed_border_counts_torus_neighbours
        (rows cols : nat) (cs : list (list (list bool))) (t : Z)
        (slab : list (list bool)) (i j : Z) :
  0 <= t -> cs !! Z.to_nat t = Some slab -> shaped2 (rows + 2) (cols + 2) slab ->
  1 <= i <= Z.of_nat rows -> 1 <= j <= Z.of_nat cols ->
  exists cs' nl,
    refresh_border rows cols t cs = Ok cs'
    /\ neighbors cs' t i j = Ok nl
    /\ count nl (PyBool true)
       = Spec.alive_neighbours true (interior rows cols slab) (i - 1) (j - 1).
Proof. apply periodic_neighbour_count. Qed.

Lemma refreshed_border_counts_torus_neighbours_witness :
  exists cs' nl,
    refresh_border 2 2 0 [generation0 corner2 2 2] = Ok cs'
    /\ neighbors cs' 0 1 1 = Ok nl
    /\ count nl (PyBool true)
       = Spec.alive_neighbours true (interior 2 2 (generation0 corner2 2 2)) (1 - 1) (1 - 1).
Proof.
  apply (refreshed_border_counts_torus_neighbours
           2 2 [generation0 corner2 2 2] 0 (generation0 corner2 2 2) 1 1);
    [lia | reflexivity | split; [reflexivity | repeat constructor] | lia | lia].
Defined.

(** Lines 157 to 160 give generation 0 a border that is periodic to the
    left, to the right and at the bottom, and leave the interior alone;
    of the top border row only the cell above the first column (and with it
    the top right corner) is assigned: the cells above the other columns
    stay [False]. *)
Theorem life_periodic_first_border
        (initial_state : list (list bool)) (nsteps : Z) (rows cols : nat) :
  shape2 initial_state = Ok (rows, cols) -> 1 <= nsteps ->
  exists g0,
    life_periodic_init initial_state nsteps rows cols
    = Ok (g0 :: replicate (Z.to_nat nsteps - 1) (full2 (rows + 2) (cols + 2)))
    /\ interior rows cols g0 = initial_state
    /\ (forall i : nat, (i <= rows + 1)%nat ->
          cell2 g0 i 0 = cell2 g0 i cols /\ cell2 g0 i (cols + 1) = cell2 g0 i 1)
    /\ (forall j : nat, (j <= cols + 1)%nat -> cell2 g0 (rows + 1) j = cell2 g0 1 j)
    /\ cell2 g0 0 1 = cell2 g0 rows 1
    /\ (forall j : nat, (2 <= j <= cols)%nat -> cell2 g0 0 j = Some false).
Proof.
  intros Hshape Hn.
  destruct (shape2_shaped _ _ _ Hshape) as [Hs Hr].
  destruct (life_periodic_init_ok rows cols initial_state nsteps Hs Hn)
    as (g0 & Hg0 & _ & Hint).
  exists g0. split; [done|]. split; [done|].
  rewrite life_periodic_init_border0 in Hg0 by done. injection Hg0 as <-.
  pose proof (generation0_shaped initial_state rows cols Hs) as Hgs.
  destruct (wrap_values cols) as (W0 & Wc & Wc1 & W1).
  split; [|split; [|split]].
  - intros i Hi. rewrite !border0_cell by (done || lia).
    by rewrite W0, Wc, Wc1, W1.
  - intros j Hj. rewrite !border0_cell by (done || lia).
    destruct (Nat.eqb_spec (rows + 1) 0) as [|_]; [lia|].
    rewrite Nat.eqb_refl. change (Nat.eqb 1 0) with false. cbv iota.
    by destruct (Nat.eqb 1 (rows + 1)).
  - rewrite !border0_cell by (done || lia). rewrite W1. cbn [Nat.eqb].
    destruct (Nat.eqb_spec rows 0) as [|_]; [lia|].
    by destruct (Nat.eqb_spec rows (rows + 1)) as [|_]; [lia|].
  - intros j Hj. rewrite border0_cell by (done || lia). cbn [Nat.eqb].
    unfold wrap. destruct (Nat.eqb_spec j 0) as [|_]; [lia|].
    destruct (Nat.eqb_spec j (cols + 1)) as [|_]; [lia|].
    destruct (Nat.eqb_spec j 1) as [|_]; [lia|].
    rewrite generation0_cell by (done || lia). reflexivity.
Qed.

Lemma life_periodic_first_border_witness :
  exists g0,
    life_periodic_init glider5 3 5 5
    = Ok (g0 :: replicate (Z.to_nat 3 - 1) (full2 (5 + 2) (5 + 2)))
    /\ interior 5 5 g0 = glider5
    /\ (forall i : nat, (i <= 5 + 1)%nat ->
          cell2 g0 i 0 = cell2 g0 i 5 /\ cell2 g0 i (5 + 1) = cell2 g0 i 1)
    /\ (forall j : nat, (j <= 5 + 1)%nat -> cell2 g0 (5 + 1) j = cell2 g0 1 j)
    /\ cell2 g0 0 1 = cell2 g0 5 1
    /\ (forall j : nat, (2 <= j <= 5)%nat -> cell2 g0 0 j = Some false).
Proof. apply (life_periodic_first_border glider5 3 5 5); [reflexivity | lia]. Defined.

(** On a grid with at least one column the loop of [life_periodic] changes
    no cell of [current_state]: when the loop is left, generation 0 is as
    lines 156 to 160 made it and every later generation, its border
    included, is as [np.full] made it. *)
Theorem life_periodic_loop_writes_nothing
        (initial_state : list (list bool)) (nsteps : Z) (rows cols : nat) :
  shape2 initial_state = Ok (rows, cols) -> (1 <= cols)%nat -> 1 <= nsteps ->
  exists g0,
    life_periodic_init initial_state nsteps rows cols
    = Ok (g0 :: replicate (Z.to_nat nsteps - 1) (full2 (rows + 2) (cols + 2)))
    /\ life_periodic_run initial_state nsteps
       = Ok (rows, cols, g0 :: replicate (Z.to_nat nsteps - 1) (full2 (rows + 2) (cols + 2))).
Proof.
  intros Hshape Hcols Hn.
  destruct (shape2_shaped _ _ _ Hshape) as [Hs _].
  eexists. split; [by apply life_periodic_init_border0|].
  by apply life_periodic_run_fixed.
Qed.

Lemma life_periodic_loop_writes_nothing_witness :
  exists g0,
    life_periodic_init glider5 4 5 5
    = Ok (g0 :: replicate (Z.to_nat 4 - 1) (full2 (5 + 2) (5 + 2)))
    /\ life_periodic_run glider5 4
       = Ok (5%nat, 5%nat, g0 :: replicate (Z.to_nat 4 - 1) (full2 (5 + 2) (5 + 2))).
Proof.
  apply (life_periodic_loop_writes_nothing glider5 4 5 5); [reflexivity | lia | lia].
Defined.
